(** * vella-backend: the page store and its URL normaliser

    A shallow embedding of [src/utils/url.ts] (the function [cleanUrl]),
    of [database/models/PageModel.ts] (the schema of a page document) and of
    [controllers/PageController.ts] (the operations on the [pages]
    collection), followed by the properties of the page store. *)

From Stdlib Require Import String Ascii List Bool Arith Lia.
Import ListNotations.
Open Scope string_scope.

(** ** Regular expressions, as far as [url.ts] uses them *)

Module Regex.

(** The fragment of the JavaScript pattern language that occurs in
    [cleanUrl]: literal characters, the anchors [^] and [$], sequencing,
    alternation and the greedy [?].  A subject is a [string], a sequence of
    code units; the patterns of [cleanUrl] name ASCII characters only. *)
Inductive regex : Type :=
| Eps
| Chr (c : ascii)
| Bol
| Eol
| Cat (r1 r2 : regex)
| Alt (r1 r2 : regex)
| Opt (r : regex).

(** Backtracking matcher in continuation-passing style.  [atStart] says
    whether the current position is index 0 of the subject (no [m] flag: [^]
    matches only there, [$] only at the very end), [n] counts the code units
    consumed so far.  Alternatives are tried left to right and [?] is greedy,
    as in ECMAScript. *)
Fixpoint exec (r : regex) (atStart : bool) (n : nat) (s : string)
    (k : bool -> nat -> string -> option (nat * string)) : option (nat * string) :=
  match r with
  | Eps => k atStart n s
  | Chr c =>
      match s with
      | String a s' => if Ascii.eqb a c then k false (S n) s' else None
      | EmptyString => None
      end
  | Bol => if atStart then k atStart n s else None
  | Eol =>
      match s with
      | EmptyString => k atStart n s
      | String _ _ => None
      end
  | Cat r1 r2 => exec r1 atStart n s (fun b m s' => exec r2 b m s' k)
  | Alt r1 r2 =>
      match exec r1 atStart n s k with
      | Some res => Some res
      | None => exec r2 atStart n s k
      end
  | Opt r1 =>
      match exec r1 atStart n s k with
      | Some res => Some res
      | None => k atStart n s
      end
  end.

(** A match attempt at the current position: the length of the match and
    what follows it. *)
Definition matchAt (r : regex) (atStart : bool) (s : string) : option (nat * string) :=
  exec r atStart 0 s (fun _ m rest => Some (m, rest)).

(** [s.replace(r, rep)] for a pattern without the [g] flag: the leftmost
    match is replaced, the rest of the subject is kept. *)
Fixpoint replaceFrom (r : regex) (atStart : bool) (s rep : string) : string :=
  match matchAt r atStart s with
  | Some (_, rest) => rep ++ rest
  | None =>
      match s with
      | EmptyString => EmptyString
      | String a s' => String a (replaceFrom r false s' rep)
      end
  end.

Definition replace (r : regex) (s rep : string) : string :=
  replaceFrom r true s rep.

(** [s.replace(r, rep)] for a pattern with the [g] flag: every match, found
    left to right, is replaced.  [skip] is the number of code units of the
    last match still to be passed over; an empty match advances by one code
    unit, as [lastIndex] does. *)
Fixpoint replaceAllFrom (r : regex) (atStart : bool) (skip : nat) (s rep : string)
    : string :=
  match skip with
  | S skip' =>
      match s with
      | EmptyString => EmptyString
      | String _ s' => replaceAllFrom r false skip' s' rep
      end
  | O =>
      match matchAt r atStart s with
      | Some (O, _) =>
          rep ++ match s with
                 | EmptyString => EmptyString
                 | String a s' => String a (replaceAllFrom r false 0 s' rep)
                 end
      | Some (S m, _) =>
          rep ++ match s with
                 | EmptyString => EmptyString
                 | String _ s' => replaceAllFrom r false m s' rep
                 end
      | None =>
          match s with
          | EmptyString => EmptyString
          | String a s' => String a (replaceAllFrom r false 0 s' rep)
          end
      end
  end.

Definition replaceAll (r : regex) (s rep : string) : string :=
  replaceAllFrom r true 0 s rep.

(** A literal word as a pattern. *)
Fixpoint lit (w : string) : regex :=
  match w with
  | EmptyString => Eps
  | String c w' => Cat (Chr c) (lit w')
  end.

End Regex.

(** ** [src/utils/url.ts] *)

Module Url.
Import Regex.

(** [/^https?:\/\//] *)
Definition re_scheme : regex :=
  Cat Bol (Cat (lit "http") (Cat (Opt (Chr "s")) (lit "://"))).

(** [/^\/|\/$/g] *)
Definition re_outer_slash : regex :=
  Alt (Cat Bol (Chr "/")) (Cat (Chr "/") Eol).

(** [/\./g] *)
Definition re_dot : regex := Chr ".".

(** The current revision of [cleanUrl]. *)
Definition cleanUrl (url : string) : string :=
  let cleanedUrl := replace re_scheme url "" in
  let cleanedUrl := replaceAll re_outer_slash cleanedUrl "" in
  let cleanedUrl := replaceAll re_dot cleanedUrl "-" in
  cleanedUrl.

(** The earlier revision of [cleanUrl], without the pass over the dots. *)
Definition cleanUrl_rev1 (url : string) : string :=
  let cleanedUrl := replace re_scheme url "" in
  let cleanedUrl := replaceAll re_outer_slash cleanedUrl "" in
  cleanedUrl.

(** *** The normaliser as the specification words it

    Three passes in a fixed order: drop one leading [http://] or [https://],
    drop one leading and one trailing [/], turn every [.] into [-]. *)

Fixpoint drop (n : nat) (s : string) : string :=
  match n, s with
  | O, _ => s
  | S _, EmptyString => EmptyString
  | S n', String _ s' => drop n' s'
  end.

(** Whether the word [w] stands at the beginning of [s]. *)
Fixpoint startsWith (w s : string) : bool :=
  match w, s with
  | EmptyString, _ => true
  | String _ _, EmptyString => false
  | String c w', String a s' => if Ascii.eqb a c then startsWith w' s' else false
  end.

Definition stripScheme (s : string) : string :=
  if startsWith "https://" s then drop 8 s
  else if startsWith "http://" s then drop 7 s
  else s.

Definition stripLeadingSlash (s : string) : string :=
  match s with
  | String a s' => if Ascii.eqb a "/" then s' else s
  | EmptyString => s
  end.

Fixpoint stripTrailingSlash (s : string) : string :=
  match s with
  | EmptyString => EmptyString
  | String a EmptyString => if Ascii.eqb a "/" then EmptyString else s
  | String a s' => String a (stripTrailingSlash s')
  end.

Fixpoint dotsToDashes (s : string) : string :=
  match s with
  | EmptyString => EmptyString
  | String a s' => String (if Ascii.eqb a "." then "-"%char else a) (dotsToDashes s')
  end.

Definition normalize (raw : string) : string :=
  dotsToDashes (stripTrailingSlash (stripLeadingSlash (stripScheme raw))).

(** Shapes of a key that a further normalisation would still change. *)
Definition startsWithSlash (s : string) : bool := startsWith "/" s.

Fixpoint endsWithSlash (s : string) : bool :=
  match s with
  | EmptyString => false
  | String a EmptyString => Ascii.eqb a "/"
  | String _ s' => endsWithSlash s'
  end.

Definition hasScheme (s : string) : bool :=
  startsWith "http://" s || startsWith "https://" s.

Definition outerWrapped (s : string) : bool :=
  hasScheme s || startsWithSlash s || endsWithSlash s.

Fixpoint hasDot (s : string) : bool :=
  match s with
  | EmptyString => false
  | String a s' => Ascii.eqb a "." || hasDot s'
  end.

End Url.

Open Scope list_scope.

(** ** [src/database/models/PageModel.ts] *)

Module PageModel.

(** A page document: the URL is the [_id], [page] is the title. *)
Record IPage : Type := mkPage {
  _id : string;
  page : string;
  description : option string
}.

(** What an operation can throw. *)
Inductive error : Type :=
| ValidationError            (* mongoose: a path marked [required] is missing *)
| DuplicateKeyError          (* the server refuses a second document with the same [_id] *)
| PageDoesNotExist (oldUrl : string)   (* thrown by [updatePageUrl] itself *)
| TransactionError.          (* commit or abort without a transaction in progress *)

(** The error kinds of the specification. *)
Inductive errorKind : Type :=
| InvalidInput | DuplicateKey | NotFound | StoreUnavailable.

Definition kind (e : error) : errorKind :=
  match e with
  | ValidationError => InvalidInput
  | DuplicateKeyError => DuplicateKey
  | PageDoesNotExist _ => NotFound
  | TransactionError => StoreUnavailable
  end.

(** The [pages] collection, in insertion order. *)
Definition collection : Type := list IPage.

Definition keys (c : collection) : list string := map _id c.

(** [pageSchema]: [_id] and [page] are [required: true] strings, which an
    empty string does not satisfy; [description] is [required: false]. *)
Definition checkRequired (v : string) : bool := negb (v =? "").

Definition validate (doc : IPage) : bool :=
  checkRequired (_id doc) && checkRequired (page doc).

(** The first document with the given [_id]. *)
Fixpoint lookup (id : string) (c : collection) : option IPage :=
  match c with
  | [] => None
  | d :: c' => if _id d =? id then Some d else lookup id c'
  end.

(** The collection without the first document with the given [_id]. *)
Fixpoint remove (id : string) (c : collection) : collection :=
  match c with
  | [] => []
  | d :: c' => if _id d =? id then c' else d :: remove id c'
  end.

(** The collection with [f] applied to the first document with the given
    [_id]. *)
Fixpoint modify (id : string) (f : IPage -> IPage) (c : collection) : collection :=
  match c with
  | [] => []
  | d :: c' => if _id d =? id then f d :: c' else d :: modify id f c'
  end.

(** The documents stored under another [_id] than the given one. *)
Definition others (id : string) (c : collection) : collection :=
  filter (fun d => negb (_id d =? id)) c.

(** A validated insert: the document is checked against the schema first,
    then the server checks the unique index on [_id]. *)
Definition insert (doc : IPage) (c : collection) : error + collection :=
  if validate doc then
    match lookup (_id doc) c with
    | Some _ => inl DuplicateKeyError
    | None => inr (c ++ [doc])%list
    end
  else inl ValidationError.

(** *** The database: committed data and the transaction of the session *)

Record Db : Type := mkDb {
  committed : collection;
  transaction : option collection
}.

(** The database between two calls of the controller: no transaction open. *)
Definition idle (c : collection) : Db :=
  {| committed := c; transaction := None |}.

(** What an operation sees and writes: the working copy of the transaction
    when it is given the session and a transaction is in progress, the
    committed collection otherwise. *)
Definition view (inSession : bool) (db : Db) : collection :=
  match inSession, transaction db with
  | true, Some w => w
  | _, _ => committed db
  end.

Definition write (inSession : bool) (c : collection) (db : Db) : Db :=
  match inSession, transaction db with
  | true, Some _ => {| committed := committed db; transaction := Some c |}
  | _, _ => {| committed := c; transaction := transaction db |}
  end.

(** *** Asynchronous operations that may throw

    A computation takes the database and gives its result (a thrown error
    or a value), the database it leaves, and the committed collection as
    another client could have read it after each store operation. *)

Record outcome (A : Type) : Type := mkOutcome {
  result : error + A;
  final : Db;
  seen : list collection
}.
Arguments mkOutcome {A}.
Arguments result {A}.
Arguments final {A}.
Arguments seen {A}.

(** The error kind an outcome fails with, if it fails. *)
Definition failure {A} (o : outcome A) : option errorKind :=
  match result o with
  | inl e => Some (kind e)
  | inr _ => None
  end.

Definition M (A : Type) : Type := Db -> outcome A.

Definition ret {A} (a : A) : M A :=
  fun db => mkOutcome (inr a) db [].

Definition throw {A} (e : error) : M A :=
  fun db => mkOutcome (inl e) db [].

Definition bind {A B} (m : M A) (f : A -> M B) : M B :=
  fun db =>
    let o := m db in
    match result o with
    | inl e => mkOutcome (inl e) (final o) (seen o)
    | inr a => let o' := f a (final o) in
               mkOutcome (result o') (final o') (seen o ++ seen o')%list
    end.

Definition tryCatch {A} (m : M A) (handler : error -> M A) : M A :=
  fun db =>
    let o := m db in
    match result o with
    | inl e => let o' := handler e (final o) in
               mkOutcome (result o') (final o') (seen o ++ seen o')%list
    | inr _ => o
    end.

(** One round trip to the store. *)
Definition storeOp {A} (f : Db -> (error + A) * Db) : M A :=
  fun db => let '(r, db') := f db in mkOutcome r db' [committed db'].

Notation "x <- m ;; k" := (bind m (fun x => k))
  (at level 61, m at next level, right associativity).
Notation "m ;;; k" := (bind m (fun _ => k))
  (at level 61, right associativity).

(** [logger.error] writes a line to the log and touches nothing else. *)
Definition logger_error : M unit := ret tt.

(** *** The model's query methods *)

Definition find : M (list IPage) :=
  storeOp (fun db => (inr (view false db), db)).

Definition findById (id : string) : M (option IPage) :=
  storeOp (fun db => (inr (lookup id (view false db)), db)).

(** [PageModel.create(doc)], and [PageModel.create([doc], { session })] for
    its single document. *)
Definition create (inSession : bool) (doc : IPage) : M IPage :=
  storeOp (fun db =>
    match insert doc (view inSession db) with
    | inl e => (inl e, db)
    | inr c => (inr doc, write inSession c db)
    end).

(** [findByIdAndDelete(id)], with [.session(session)] when [inSession]. *)
Definition findByIdAndDelete (inSession : bool) (id : string) : M (option IPage) :=
  storeOp (fun db =>
    let c := view inSession db in
    (inr (lookup id c), write inSession (remove id c) db)).

Section Update.

(** Whether the mongoose in use drops an [undefined] field from an update
    (version 6 and later) or stores it as [null] (version 5). *)
Variable omitUndefined : bool.

Definition setFields (newPage : string) (newDescription : option string)
    (d : IPage) : IPage :=
  {| _id := _id d;
     page := newPage;
     description :=
       match newDescription with
       | Some v => Some v
       | None => if omitUndefined then description d else None
       end |}.

(** [findByIdAndUpdate(id, { page, description }, { new: true,
    runValidators: true })]: the validators of the updated paths run before
    the command is sent; the updated document is returned. *)
Definition findByIdAndUpdate (id newPage : string) (newDescription : option string)
    : M (option IPage) :=
  storeOp (fun db =>
    if checkRequired newPage then
      let c := view false db in
      let f := setFields newPage newDescription in
      (inr (option_map f (lookup id c)), write false (modify id f c) db)
    else (inl ValidationError, db)).

End Update.

(** *** Sessions *)

Definition startSession : M unit := ret tt.

Definition endSession : M unit := ret tt.

Definition startTransaction : M unit :=
  fun db => mkOutcome (inr tt)
              {| committed := committed db; transaction := Some (committed db) |} [].

Definition commitTransaction : M unit :=
  storeOp (fun db =>
    match transaction db with
    | Some w => (inr tt, {| committed := w; transaction := None |})
    | None => (inl TransactionError, db)
    end).

Definition abortTransaction : M unit :=
  storeOp (fun db =>
    match transaction db with
    | Some _ => (inr tt, {| committed := committed db; transaction := None |})
    | None => (inl TransactionError, db)
    end).

End PageModel.

(** ** [src/controllers/PageController.ts] *)

Module PageController.
Import PageModel.

(** The argument of [updatePageUrl]. *)
Record NewPageData : Type := mkNewPageData {
  new_page : string;
  new_url : string;
  new_description : option string
}.

Definition getAll : M (list IPage) :=
  tryCatch
    (pages <- find ;; ret pages)
    (fun err => logger_error ;;; throw err).

Definition getPageById (pageId : string) : M (option IPage) :=
  tryCatch
    (p <- findById pageId ;; ret p)
    (fun err => logger_error ;;; throw err).

Definition createPage (page url : string) (description : option string) : M IPage :=
  tryCatch
    (newPage <- create false {| _id := url; page := page; description := description |} ;;
     ret newPage)
    (fun err => logger_error ;;; throw err).

Definition updatePage (omitUndefined : bool) (pageId page : string)
    (description : option string) : M (option IPage) :=
  tryCatch
    (updatedPage <- findByIdAndUpdate omitUndefined pageId page description ;;
     ret updatedPage)
    (fun err => logger_error ;;; throw err).

Definition updatePageUrl (oldUrl : string) (newPageData : NewPageData) : M IPage :=
  startSession ;;;
  startTransaction ;;;
  tryCatch
    (deletedPage <- findByIdAndDelete true oldUrl ;;
     match deletedPage with
     | None => throw (PageDoesNotExist oldUrl)
     | Some _ =>
         newPage <- create true {| _id := new_url newPageData;
                                   page := new_page newPageData;
                                   description := new_description newPageData |} ;;
         commitTransaction ;;;
         endSession ;;;
         ret newPage
     end)
    (fun err =>
       abortTransaction ;;;
       endSession ;;;
       logger_error ;;;
       throw err).

Definition deletePage (pageId : string) : M (option IPage) :=
  tryCatch
    (deletedPage <- findByIdAndDelete false pageId ;; ret deletedPage)
    (fun err => logger_error ;;; throw err).

(** The calls a client of the controller can make. *)
Inductive call : Type :=
| GetAll
| GetPageById (pageId : string)
| CreatePage (page url : string) (description : option string)
| UpdatePage (pageId page : string) (description : option string)
| UpdatePageUrl (oldUrl : string) (newPageData : NewPageData)
| DeletePage (pageId : string).

(** The database a call leaves behind, whether it returns or throws. *)
Definition after (omitUndefined : bool) (c : call) (db : Db) : Db :=
  match c with
  | GetAll => final (getAll db)
  | GetPageById pageId => final (getPageById pageId db)
  | CreatePage page url description => final (createPage page url description db)
  | UpdatePage pageId page description =>
      final (updatePage omitUndefined pageId page description db)
  | UpdatePageUrl oldUrl newPageData => final (updatePageUrl oldUrl newPageData db)
  | DeletePage pageId => final (deletePage pageId db)
  end.

Definition afterAll (omitUndefined : bool) (cs : list call) (db : Db) : Db :=
  fold_left (fun d c => after omitUndefined c d) cs db.

(** The document that [updatePageUrl] tries to create. *)
Definition newDocument (newPageData : NewPageData) : IPage :=
  {| _id := new_url newPageData;
     page := new_page newPageData;
     description := new_description newPageData |}.

End PageController.

(** ** The request handlers: [src/middlewares/pageUrl.ts] and [src/routes/pages.ts] *)

Module Routes.
Import PageModel.

(** What the handlers read from a request: [req.params[0]], the part of the
    path that the wildcard of [/pages/*] matched, and the fields of the JSON
    body, typed as the controller's signatures type them. *)
Record Request : Type := mkRequest {
  params0 : string;
  body_page : string;
  body_url : string;
  body_description : option string
}.

(** The object a handler sends back. *)
Record IDataResponse (D : Type) : Type := mkResponse {
  message : string;
  status : string;
  data : D
}.
Arguments mkResponse {D}.
Arguments message {D}.
Arguments status {D}.
Arguments data {D}.

(** [new ServerFailedError(message)]. *)
Inductive ServerFailedError : Type :=
| mkServerFailedError (reason : string).

(** How a handler ends: [res.status(code).json(response)] or [next(err)]. *)
Inductive reply (D : Type) : Type :=
| Json (code : nat) (response : IDataResponse D)
| Next (err : ServerFailedError).
Arguments Json {D}.
Arguments Next {D}.

(** A string is truthy when it is not empty. *)
Definition truthy (v : string) : bool := negb (v =? "").

(** The middleware [pageUrl]: the request as it is handed to [next()]. *)
Definition pageUrl (req : Request) : Request :=
  if truthy (body_url req) then
    {| params0 := params0 req;
       body_page := body_page req;
       body_url := Url.cleanUrl (body_url req);
       body_description := body_description req |}
  else req.

Definition getPages (req : Request) : M (reply (list IPage)) :=
  tryCatch
    (data <- PageController.getAll ;;
     ret (Json 200 {| message := "Pages retrieved successfully";
                      status := "success";
                      data := data |}))
    (fun _ => ret (Next (mkServerFailedError "Failed to retrieve pages."))).

Definition getPage (req : Request) : M (reply (option IPage)) :=
  tryCatch
    (data <- PageController.getPageById (Url.cleanUrl (params0 req)) ;;
     ret (Json 200 {| message := "Page retrieved successfully";
                      status := "success";
                      data := data |}))
    (fun _ => ret (Next (mkServerFailedError "Failed to retrieve page."))).

Definition createPage (req : Request) : M (reply IPage) :=
  tryCatch
    (data <- PageController.createPage (body_page req) (body_url req)
               (body_description req) ;;
     ret (Json 200 {| message := "Page created successfully";
                      status := "success";
                      data := data |}))
    (fun _ => ret (Next (mkServerFailedError "Failed to create page."))).

(** The handler passes [req.body.page] where the controller expects the
    [pageId] and the normalised path where it expects the title. *)
Definition updatePage (omitUndefined : bool) (req : Request)
    : M (reply (option IPage)) :=
  tryCatch
    (data <- PageController.updatePage omitUndefined (body_page req)
               (Url.cleanUrl (params0 req)) (body_description req) ;;
     ret (Json 200 {| message := "Page updated successfully";
                      status := "success";
                      data := data |}))
    (fun _ => ret (Next (mkServerFailedError "Failed to update page."))).

Definition deletePage (req : Request) : M (reply (option IPage)) :=
  tryCatch
    (data <- PageController.deletePage (Url.cleanUrl (params0 req)) ;;
     ret (Json 200 {| message := "Page deleted successfully";
                      status := "success";
                      data := data |}))
    (fun _ => ret (Next (mkServerFailedError "Failed to delete page."))).

(** The document a successful reply carries, if any. *)
Definition payload {D} (r : error + reply D) : option D :=
  match r with
  | inr (Json _ response) => Some (data response)
  | _ => None
  end.

End Routes.

(** Two pages to run the controller on. *)
Module Sample.
Import PageModel.

Definition home : IPage :=
  {| _id := "example-com"; page := "Home"; description := Some "Landing page" |}.

Definition about : IPage :=
  {| _id := "example-com/about"; page := "About"; description := None |}.

Definition pages : collection := [home; about].

End Sample.

Import Url PageModel PageController.

(** ** The normaliser *)

Example cleanUrl_double_slash : cleanUrl "//a" = "/a".
Proof. reflexivity. Qed.

Example cleanUrl_double_scheme : cleanUrl "http://https://a.b//" = "https://a-b/".
Proof. reflexivity. Qed.

Example cleanUrl_edge_cases :
  cleanUrl "/" = "" /\ cleanUrl "//" = "" /\ cleanUrl "https://" = "" /\
  cleanUrl "http:/x" = "http:/x" /\ cleanUrl "a//b" = "a//b".
Proof. repeat split; reflexivity. Qed.

Example cleanUrl_rev1_keeps_dots : cleanUrl_rev1 "https://example.com/" = "example.com".
Proof. reflexivity. Qed.

Module UrlFacts.
Import Regex.

Lemma matchAt_scheme_inside (s : string) : matchAt re_scheme false s = None.
Proof. reflexivity. Qed.

Lemma replaceFrom_scheme_inside (s rep : string) :
  replaceFrom re_scheme false s rep = s.
Proof.
  induction s as [|a s IH]; cbn [replaceFrom]; rewrite matchAt_scheme_inside.
  - reflexivity.
  - now rewrite IH.
Qed.

Ltac next_char s :=
  destruct s as [|? s]; cbn; try reflexivity;
  match goal with
  | |- context [Ascii.eqb ?a ?c] =>
      destruct (Ascii.eqb_spec a c); subst; cbn; try reflexivity
  end.

Lemma matchAt_scheme_start (s : string) :
  matchAt re_scheme true s =
  if startsWith "https://" s then Some (8, drop 8 s)
  else if startsWith "http://" s then Some (7, drop 7 s)
  else None.
Proof.
  unfold matchAt, re_scheme.
  repeat next_char s.
Qed.

(** The first pass of [cleanUrl] drops one scheme from the front. *)
Lemma replace_scheme (s : string) : replace re_scheme s "" = stripScheme s.
Proof.
  unfold replace, stripScheme.
  destruct s as [|a s]; [reflexivity|].
  cbn [replaceFrom]. rewrite matchAt_scheme_start.
  destruct (startsWith "https://" (String a s)); [reflexivity|].
  destruct (startsWith "http://" (String a s)); [reflexivity|].
  now rewrite replaceFrom_scheme_inside.
Qed.

Lemma matchAt_outer_slash_inside (a : ascii) (s : string) :
  matchAt re_outer_slash false (String a s) =
  if Ascii.eqb a "/" then match s with EmptyString => Some (1, "") | _ => None end
  else None.
Proof.
  unfold matchAt, re_outer_slash; cbn.
  destruct (Ascii.eqb a "/"); [destruct s|]; reflexivity.
Qed.

Lemma replaceAllFrom_outer_slash_inside (s : string) :
  replaceAllFrom re_outer_slash false 0 s "" = stripTrailingSlash s.
Proof.
  induction s as [|a s IH]; [reflexivity|].
  cbn [replaceAllFrom]. rewrite matchAt_outer_slash_inside.
  cbn [stripTrailingSlash].
  destruct s as [|b s].
  - destruct (Ascii.eqb a "/"); reflexivity.
  - rewrite IH. destruct (Ascii.eqb a "/"); reflexivity.
Qed.

Lemma matchAt_outer_slash_start (a : ascii) (s : string) :
  matchAt re_outer_slash true (String a s) =
  if Ascii.eqb a "/" then Some (1, s) else None.
Proof.
  unfold matchAt, re_outer_slash; cbn.
  destruct (Ascii.eqb a "/"); reflexivity.
Qed.

Lemma stripTrailingSlash_cons (a : ascii) (s : string) :
  Ascii.eqb a "/" = false ->
  stripTrailingSlash (String a s) = String a (stripTrailingSlash s).
Proof.
  intros Ea. cbn [stripTrailingSlash]. destruct s; [now rewrite Ea | reflexivity].
Qed.

(** The second pass drops one slash at the front and then one at the end. *)
Lemma replaceAll_outer_slash (s : string) :
  replaceAll re_outer_slash s "" = stripTrailingSlash (stripLeadingSlash s).
Proof.
  unfold replaceAll. destruct s as [|a s]; [reflexivity|].
  cbn [replaceAllFrom stripLeadingSlash].
  rewrite matchAt_outer_slash_start.
  destruct (Ascii.eqb a "/") eqn:Ea.
  - apply replaceAllFrom_outer_slash_inside.
  - rewrite replaceAllFrom_outer_slash_inside.
    now rewrite stripTrailingSlash_cons.
Qed.

(** The third pass rewrites every dot. *)
Lemma replaceAllFrom_dot (b : bool) (s : string) :
  replaceAllFrom re_dot b 0 s "-" = dotsToDashes s.
Proof.
  revert b; induction s as [|a s IH]; intros b; [reflexivity|].
  cbn [replaceAllFrom dotsToDashes]. unfold matchAt, re_dot; cbn [exec].
  destruct (Ascii.eqb a "."); cbn; now rewrite IH.
Qed.

Lemma cleanUrl_normalize (url : string) : cleanUrl url = normalize url.
Proof.
  unfold cleanUrl, normalize.
  rewrite replace_scheme, replaceAll_outer_slash.
  apply replaceAllFrom_dot.
Qed.

(** *** Keys that normalisation leaves alone *)

Lemma startsWith_length (w s : string) :
  startsWith w s = true -> String.length (drop (String.length w) s) + String.length w = String.length s.
Proof.
  revert s; induction w as [|c w IH]; intros s H; cbn in *.
  - lia.
  - destruct s as [|a s]; [discriminate|].
    destruct (Ascii.eqb a c); [|discriminate].
    cbn. specialize (IH s H). lia.
Qed.

Lemma length_stripScheme (s : string) :
  String.length (stripScheme s) <= String.length s /\
  (hasScheme s = true -> String.length (stripScheme s) < String.length s).
Proof.
  unfold stripScheme, hasScheme.
  destruct (startsWith "https://" s) eqn:E1.
  - apply startsWith_length in E1. cbn [String.length] in E1. split; intros; lia.
  - destruct (startsWith "http://" s) eqn:E2.
    + apply startsWith_length in E2. cbn [String.length] in E2. split; intros; lia.
    + split; [lia | discriminate].
Qed.

Lemma length_stripLeadingSlash (s : string) :
  String.length (stripLeadingSlash s) <= String.length s /\
  (startsWithSlash s = true -> String.length (stripLeadingSlash s) < String.length s).
Proof.
  destruct s as [|a s]; cbn.
  - split; [lia | discriminate].
  - destruct (Ascii.eqb a "/"); cbn; split; try lia; discriminate.
Qed.

Lemma length_stripTrailingSlash (s : string) :
  String.length (stripTrailingSlash s) <= String.length s /\
  (endsWithSlash s = true -> String.length (stripTrailingSlash s) < String.length s).
Proof.
  induction s as [|a s [IH1 IH2]].
  - cbn. split; [lia | discriminate].
  - destruct s as [|b s].
    + cbn. destruct (Ascii.eqb a "/"); cbn; split; try lia; discriminate.
    + change (stripTrailingSlash (String a (String b s)))
        with (String a (stripTrailingSlash (String b s))).
      change (endsWithSlash (String a (String b s)))
        with (endsWithSlash (String b s)).
      cbn [String.length] in *. split; [lia|]. intros H. specialize (IH2 H). lia.
Qed.

Lemma length_dotsToDashes (s : string) : String.length (dotsToDashes s) = String.length s.
Proof. induction s as [|a s IH]; cbn; congruence. Qed.

Lemma stripScheme_id (s : string) : hasScheme s = false -> stripScheme s = s.
Proof.
  unfold hasScheme, stripScheme. intros H.
  apply orb_false_iff in H as [H1 H2]. now rewrite H1, H2.
Qed.

Lemma stripLeadingSlash_id (s : string) :
  startsWithSlash s = false -> stripLeadingSlash s = s.
Proof.
  destruct s as [|a s]; cbn; [reflexivity|].
  destruct (Ascii.eqb a "/"); [discriminate | reflexivity].
Qed.

Lemma stripTrailingSlash_id (s : string) :
  endsWithSlash s = false -> stripTrailingSlash s = s.
Proof.
  induction s as [|a s IH]; [reflexivity|].
  destruct s as [|b s].
  - cbn. intros ->. reflexivity.
  - change (endsWithSlash (String a (String b s)))
      with (endsWithSlash (String b s)).
    change (stripTrailingSlash (String a (String b s)))
      with (String a (stripTrailingSlash (String b s))).
    intros H. now rewrite IH.
Qed.

Lemma dotsToDashes_id (s : string) : hasDot s = false <-> dotsToDashes s = s.
Proof.
  induction s as [|a s IH]; cbn; [tauto|].
  destruct (Ascii.eqb_spec a "."); cbn.
  - subst. split; [discriminate|]. intros H. discriminate.
  - rewrite IH. split; [congruence|]. intros H. now injection H.
Qed.

Lemma hasDot_dotsToDashes (s : string) : hasDot (dotsToDashes s) = false.
Proof.
  induction s as [|a s IH]; cbn; [reflexivity|].
  rewrite IH. destruct (Ascii.eqb_spec a "."); [reflexivity|].
  rewrite orb_false_r. now apply Ascii.eqb_neq.
Qed.

Lemma hasDot_cleanUrl (s : string) : hasDot (cleanUrl s) = false.
Proof. rewrite cleanUrl_normalize. apply hasDot_dotsToDashes. Qed.

(** The fixed points of [cleanUrl] are exactly the keys without a scheme in
    front, without a slash at either end and without a dot. *)
Lemma cleanUrl_fixed_point (t : string) :
  cleanUrl t = t <-> outerWrapped t = false /\ hasDot t = false.
Proof.
  rewrite cleanUrl_normalize. unfold normalize, outerWrapped. split.
  - intros H.
    assert (L : String.length (dotsToDashes (stripTrailingSlash (stripLeadingSlash (stripScheme t))))
                = String.length t) by now rewrite H.
    rewrite length_dotsToDashes in L.
    destruct (length_stripScheme t) as [S1 S2].
    destruct (length_stripLeadingSlash (stripScheme t)) as [L1 L2].
    destruct (length_stripTrailingSlash (stripLeadingSlash (stripScheme t))) as [T1 T2].
    destruct (hasScheme t) eqn:Hs; [specialize (S2 eq_refl); lia|].
    rewrite (stripScheme_id _ Hs) in *.
    destruct (startsWithSlash t) eqn:Hl; [specialize (L2 eq_refl); lia|].
    rewrite (stripLeadingSlash_id _ Hl) in *.
    destruct (endsWithSlash t) eqn:Ht; [specialize (T2 eq_refl); lia|].
    rewrite (stripTrailingSlash_id _ Ht) in *.
    split; [reflexivity|]. now apply dotsToDashes_id.
  - intros [H Hd].
    apply orb_false_iff in H as [H Ht]. apply orb_false_iff in H as [Hs Hl].
    rewrite (stripScheme_id _ Hs), (stripLeadingSlash_id _ Hl),
      (stripTrailingSlash_id _ Ht).
    now apply dotsToDashes_id.
Qed.

End UrlFacts.

(** C4, as the specification states it, fails: a second slash or a second
    scheme in front survives the first normalisation and is removed by the
    next one. *)
Lemma cleanUrl_not_idempotent :
  ~ (forall s : string, cleanUrl (cleanUrl s) = cleanUrl s).
Proof.
  intros H. specialize (H "//a"). vm_compute in H. discriminate H.
Qed.

(** C4, amended: normalising twice gives the same key as normalising once
    whenever the key obtained the first time carries no scheme in front and
    no slash at either end; and a key without a scheme in front, without a
    slash at either end and without a dot is returned unchanged. *)
Theorem cleanUrl_idempotent_unwrapped :
  (forall s : string,
      outerWrapped (cleanUrl s) = false ->
      cleanUrl (cleanUrl s) = cleanUrl s) /\
  (forall t : string,
      outerWrapped t = false -> hasDot t = false -> cleanUrl t = t).
Proof.
  split.
  - intros s H. apply UrlFacts.cleanUrl_fixed_point.
    split; [exact H | apply UrlFacts.hasDot_cleanUrl].
  - intros t H D. apply UrlFacts.cleanUrl_fixed_point. now split.
Qed.

Lemma cleanUrl_idempotent_unwrapped_witness :
  outerWrapped (cleanUrl "https://example.com/") = false /\
  cleanUrl (cleanUrl "https://example.com/") = cleanUrl "https://example.com/" /\
  cleanUrl "example-com/about" = "example-com/about".
Proof.
  split; [reflexivity|]. split.
  - apply (proj1 cleanUrl_idempotent_unwrapped "https://example.com/"); reflexivity.
  - apply (proj2 cleanUrl_idempotent_unwrapped "example-com/about"); reflexivity.
Defined.

(** C5: [cleanUrl] is the three passes of the specification in their order
    (one scheme off the front, one slash off each end, every dot turned into
    a dash), and gives the four keys the specification lists. *)
Theorem cleanUrl_is_normalize :
  (forall url : string,
      cleanUrl url =
      dotsToDashes (stripTrailingSlash (stripLeadingSlash (stripScheme url)))) /\
  cleanUrl "https://example.com/" = "example-com" /\
  cleanUrl "/foo/" = "foo" /\
  cleanUrl "a.b.c" = "a-b-c" /\
  cleanUrl "" = "".
Proof.
  split; [exact UrlFacts.cleanUrl_normalize|].
  repeat split; reflexivity.
Qed.

(** ** The collection *)

Module CollectionFacts.

Lemma lookup_None_iff (id : string) (c : collection) :
  lookup id c = None <-> ~ In id (keys c).
Proof.
  induction c as [|d c IH]; cbn; [tauto|].
  destruct (String.eqb_spec (_id d) id) as [E|E].
  - split; [discriminate | intros H; exfalso; apply H; now left].
  - rewrite IH. tauto.
Qed.

Lemma lookup_Some_id (id : string) (c : collection) (d : IPage) :
  lookup id c = Some d -> _id d = id /\ In d c.
Proof.
  induction c as [|d0 c IH]; cbn; [discriminate|].
  destruct (String.eqb_spec (_id d0) id) as [E|E].
  - intros [= <-]. auto.
  - intros H. destruct (IH H). auto.
Qed.

Lemma lookup_snoc (id : string) (c : collection) (d : IPage) :
  lookup id (c ++ [d]) =
  match lookup id c with
  | Some x => Some x
  | None => if _id d =? id then Some d else None
  end.
Proof.
  induction c as [|d0 c IH]; cbn; [reflexivity|].
  destruct (_id d0 =? id); [reflexivity | exact IH].
Qed.

Lemma lookup_remove_other (id id' : string) (c : collection) :
  id' <> id -> lookup id' (remove id c) = lookup id' c.
Proof.
  intros N. induction c as [|d c IH]; cbn; [reflexivity|].
  destruct (String.eqb_spec (_id d) id) as [E|E]; cbn.
  - destruct (String.eqb_spec (_id d) id'); [congruence | reflexivity].
  - now rewrite IH.
Qed.

Lemma lookup_remove_same (id : string) (c : collection) :
  NoDup (keys c) -> lookup id (remove id c) = None.
Proof.
  induction c as [|d c IH]; cbn; [reflexivity|].
  intros H. apply NoDup_cons_iff in H as [Hd Hc].
  destruct (String.eqb_spec (_id d) id) as [E|E]; cbn.
  - subst. now apply lookup_None_iff.
  - apply String.eqb_neq in E. rewrite E. auto.
Qed.

Lemma In_keys_remove (id x : string) (c : collection) :
  In x (keys (remove id c)) -> In x (keys c).
Proof.
  induction c as [|d c IH]; cbn; [tauto|].
  destruct (_id d =? id); cbn; tauto.
Qed.

Lemma NoDup_keys_remove (id : string) (c : collection) :
  NoDup (keys c) -> NoDup (keys (remove id c)).
Proof.
  induction c as [|d c IH]; cbn; [auto|].
  intros H. apply NoDup_cons_iff in H as [Hd Hc].
  destruct (_id d =? id); [assumption|].
  cbn. constructor; [|auto].
  intros Hin. apply Hd. eapply In_keys_remove; eassumption.
Qed.

Lemma NoDup_keys_snoc (c : collection) (d : IPage) :
  NoDup (keys c) -> lookup (_id d) c = None -> NoDup (keys (c ++ [d])).
Proof.
  induction c as [|d0 c IH]; cbn.
  - intros _ _. constructor; [tauto | constructor].
  - intros H. apply NoDup_cons_iff in H as [Hd Hc].
    destruct (String.eqb_spec (_id d0) (_id d)) as [E|E]; [discriminate|].
    intros L. constructor; [|auto].
    unfold keys. rewrite map_app, in_app_iff. cbn.
    intros [Hin|[Hin|[]]]; [now apply Hd | congruence].
Qed.

Lemma remove_absent (id : string) (c : collection) :
  lookup id c = None -> remove id c = c.
Proof.
  induction c as [|d c IH]; cbn; [reflexivity|].
  destruct (_id d =? id); [discriminate|]. intros H. now rewrite IH.
Qed.

Section Modify.

Variable f : IPage -> IPage.
Hypothesis f_id : forall d, _id (f d) = _id d.

Lemma keys_modify (id : string) (c : collection) :
  keys (modify id f c) = keys c.
Proof.
  induction c as [|d c IH]; cbn; [reflexivity|].
  destruct (_id d =? id); cbn; [now rewrite f_id | f_equal; exact IH].
Qed.

Lemma others_modify (id : string) (c : collection) :
  others id (modify id f c) = others id c.
Proof.
  induction c as [|d c IH]; cbn; [reflexivity|].
  destruct (_id d =? id) eqn:E; cbn.
  - now rewrite f_id, E.
  - rewrite E. cbn. f_equal. exact IH.
Qed.

Lemma modify_absent (id : string) (c : collection) :
  lookup id c = None -> modify id f c = c.
Proof.
  induction c as [|d c IH]; cbn; [reflexivity|].
  destruct (_id d =? id); [discriminate|]. intros H. now rewrite IH.
Qed.

End Modify.

Lemma setFields_id (omitUndefined : bool) (p : string) (ds : option string)
    (d : IPage) :
  _id (setFields omitUndefined p ds d) = _id d.
Proof. reflexivity. Qed.

Lemma insert_inr (doc : IPage) (c c' : collection) :
  insert doc c = inr c' ->
  validate doc = true /\ lookup (_id doc) c = None /\ c' = (c ++ [doc])%list.
Proof.
  unfold insert. destruct (validate doc); [|discriminate].
  destruct (lookup (_id doc) c); [discriminate|].
  intros [= <-]. auto.
Qed.

Lemma insert_occupied (doc r : IPage) (c : collection) :
  lookup (_id doc) c = Some r ->
  insert doc c =
  inl (if validate doc then DuplicateKeyError else ValidationError).
Proof.
  intros H. unfold insert. rewrite H. now destruct (validate doc).
Qed.

Lemma insert_free (doc : IPage) (c : collection) :
  validate doc = true -> lookup (_id doc) c = None ->
  insert doc c = inr (c ++ [doc])%list.
Proof. intros V H. unfold insert. now rewrite V, H. Qed.

End CollectionFacts.

(** ** What each call of the controller computes *)

Module ControllerFacts.
Import CollectionFacts.

Lemma getAll_run (st : collection) :
  getAll (idle st) = mkOutcome (inr st) (idle st) [st].
Proof. reflexivity. Qed.

Lemma getPageById_run (pageId : string) (st : collection) :
  getPageById pageId (idle st) = mkOutcome (inr (lookup pageId st)) (idle st) [st].
Proof. reflexivity. Qed.

Lemma createPage_run (page url : string) (description : option string)
    (st : collection) :
  createPage page url description (idle st) =
  match insert (mkPage url page description) st with
  | inl e => mkOutcome (inl e) (idle st) [st]
  | inr c => mkOutcome (inr (mkPage url page description)) (idle c) [c]
  end.
Proof.
  unfold createPage, tryCatch, bind, create, storeOp; cbn.
  destruct (insert _ st); reflexivity.
Qed.

Lemma updatePage_run (omitUndefined : bool) (pageId page : string)
    (description : option string) (st : collection) :
  updatePage omitUndefined pageId page description (idle st) =
  if checkRequired page then
    let f := setFields omitUndefined page description in
    mkOutcome (inr (option_map f (lookup pageId st)))
              (idle (modify pageId f st)) [modify pageId f st]
  else mkOutcome (inl ValidationError) (idle st) [st].
Proof.
  unfold updatePage, tryCatch, bind, findByIdAndUpdate, storeOp; cbn.
  destruct (checkRequired page); reflexivity.
Qed.

Lemma deletePage_run (pageId : string) (st : collection) :
  deletePage pageId (idle st) =
  mkOutcome (inr (lookup pageId st)) (idle (remove pageId st)) [remove pageId st].
Proof. reflexivity. Qed.

Lemma updatePageUrl_run (oldUrl : string) (newPageData : NewPageData)
    (st : collection) :
  updatePageUrl oldUrl newPageData (idle st) =
  match lookup oldUrl st with
  | None => mkOutcome (inl (PageDoesNotExist oldUrl)) (idle st) [st; st]
  | Some _ =>
      match insert (newDocument newPageData) (remove oldUrl st) with
      | inl e => mkOutcome (inl e) (idle st) [st; st; st]
      | inr c => mkOutcome (inr (newDocument newPageData)) (idle c) [st; st; c]
      end
  end.
Proof.
  unfold updatePageUrl, tryCatch, bind, findByIdAndDelete, create, storeOp.
  fold (newDocument newPageData). cbn -[insert].
  destruct (lookup oldUrl st); [|reflexivity].
  cbn -[insert].
  destruct (insert (newDocument newPageData) (remove oldUrl st)); reflexivity.
Qed.

End ControllerFacts.

(** ** The page store *)

Import CollectionFacts ControllerFacts.

(** C1, as the specification states it, fails: the document is validated
    before it is sent to the store, so a new title that is empty makes the
    rename fail with a validation error although the new key is taken. *)
Lemma updatePageUrl_conflict_not_always_duplicate :
  ~ (forall (st : collection) (oldKey : string) (newData : NewPageData)
            (r r' : IPage),
        lookup oldKey st = Some r ->
        lookup (new_url newData) st = Some r' ->
        oldKey <> new_url newData ->
        failure (updatePageUrl oldKey newData (idle st)) = Some DuplicateKey /\
        final (updatePageUrl oldKey newData (idle st)) = idle st).
Proof.
  intros H.
  destruct (H Sample.pages "example-com"
              (mkNewPageData "" "example-com/about" None)
              Sample.home Sample.about eq_refl eq_refl) as [F _].
  - discriminate.
  - vm_compute in F. discriminate F.
Qed.

(** C1, amended: when [oldKey] and a different [newKey] both hold a
    record, [updatePageUrl] fails, with [DuplicateKey] if the new key and the
    new title are non-empty and with [InvalidInput] otherwise; the store is
    then the one before the call, with both records as they were, and no
    other state of the store was ever visible. *)
Theorem updatePageUrl_conflict_rolls_back
    (st : collection) (oldKey : string) (newData : NewPageData) (r r' : IPage) :
  lookup oldKey st = Some r ->
  lookup (new_url newData) st = Some r' ->
  oldKey <> new_url newData ->
  let o := updatePageUrl oldKey newData (idle st) in
  failure o =
    Some (if validate (newDocument newData) then DuplicateKey else InvalidInput) /\
  final o = idle st /\
  lookup oldKey (committed (final o)) = Some r /\
  lookup (new_url newData) (committed (final o)) = Some r' /\
  Forall (eq st) (seen o).
Proof.
  intros Hold Hnew Hneq o. subst o.
  rewrite updatePageUrl_run, Hold.
  assert (L : lookup (_id (newDocument newData)) (remove oldKey st) = Some r').
  { cbn [newDocument _id]. rewrite lookup_remove_other; auto. }
  rewrite (insert_occupied _ _ _ L).
  unfold failure; cbn.
  repeat split; auto.
  now destruct (validate (newDocument newData)).
Qed.

Lemma updatePageUrl_conflict_rolls_back_witness :
  let o := updatePageUrl "example-com" (mkNewPageData "Team" "example-com/about" None)
             (idle Sample.pages) in
  failure o = Some DuplicateKey /\ final o = idle Sample.pages.
Proof.
  destruct (updatePageUrl_conflict_rolls_back Sample.pages "example-com"
              (mkNewPageData "Team" "example-com/about" None)
              Sample.home Sample.about eq_refl eq_refl) as (F & S & _).
  - discriminate.
  - split; [exact F | exact S].
Defined.

(** C2, as the specification states it, fails: a record at [oldKey] is not
    enough for the rename to succeed, the new key may be taken. *)
Lemma updatePageUrl_not_always_success :
  ~ (forall (st : collection) (oldKey : string) (newData : NewPageData)
            (r : IPage),
        lookup oldKey st = Some r ->
        result (updatePageUrl oldKey newData (idle st)) = inr (newDocument newData) /\
        lookup oldKey (committed (final (updatePageUrl oldKey newData (idle st))))
          = None /\
        lookup (new_url newData)
          (committed (final (updatePageUrl oldKey newData (idle st))))
          = Some (newDocument newData)).
Proof.
  intros H.
  destruct (H Sample.pages "example-com"
              (mkNewPageData "Team" "example-com/about" None)
              Sample.home eq_refl) as [R _].
  vm_compute in R. discriminate R.
Qed.

(** C2, amended: in a store with unique keys that holds a record at
    [oldKey] and none at [newKey], with [newKey] and the title [t]
    non-empty, [updatePageUrl] returns the new record; afterwards [oldKey]
    is absent, [newKey] holds [{key: newKey, title: t, description: d}],
    every other key holds what it held, and the only states of the store
    that were ever visible are the one before and the one after. *)
Theorem updatePageUrl_moves_record
    (st : collection) (oldKey : string) (newData : NewPageData) (r : IPage) :
  NoDup (keys st) ->
  lookup oldKey st = Some r ->
  lookup (new_url newData) st = None ->
  new_url newData <> "" ->
  new_page newData <> "" ->
  let o := updatePageUrl oldKey newData (idle st) in
  result o = inr (newDocument newData) /\
  final o = idle (remove oldKey st ++ [newDocument newData]) /\
  lookup oldKey (committed (final o)) = None /\
  lookup (new_url newData) (committed (final o)) = Some (newDocument newData) /\
  (forall k, k <> oldKey -> k <> new_url newData ->
             lookup k (committed (final o)) = lookup k st) /\
  Forall (fun c => c = st \/ c = committed (final o)) (seen o).
Proof.
  intros Hnd Hold Hnew Hu Hp o. subst o.
  assert (Hneq : new_url newData <> oldKey) by (intros E; congruence).
  assert (V : validate (newDocument newData) = true).
  { unfold validate, checkRequired; cbn.
    apply String.eqb_neq in Hu, Hp. now rewrite Hu, Hp. }
  assert (L : lookup (_id (newDocument newData)) (remove oldKey st) = None).
  { cbn [newDocument _id]. rewrite lookup_remove_other; auto. }
  rewrite updatePageUrl_run, Hold, (insert_free _ _ V L). cbn.
  split; [reflexivity|]. split; [reflexivity|].
  split.
  { rewrite lookup_snoc, lookup_remove_same by assumption.
    cbn [_id newDocument].
    apply String.eqb_neq in Hneq. now rewrite Hneq. }
  split.
  { rewrite lookup_snoc, lookup_remove_other, Hnew by assumption.
    cbn [_id newDocument]. now rewrite String.eqb_refl. }
  split.
  { intros k K1 K2. rewrite lookup_snoc, lookup_remove_other by assumption.
    cbn [_id newDocument].
    destruct (lookup k st); [reflexivity|].
    destruct (String.eqb_spec (new_url newData) k); congruence. }
  constructor; [now left|]. constructor; [now left|].
  constructor; [now right|]. constructor.
Qed.

Lemma updatePageUrl_moves_record_witness :
  let o := updatePageUrl "example-com" (mkNewPageData "Start" "example-org" None)
             (idle Sample.pages) in
  result o = inr (mkPage "example-org" "Start" None) /\
  lookup "example-com" (committed (final o)) = None /\
  lookup "example-org" (committed (final o)) = Some (mkPage "example-org" "Start" None).
Proof.
  destruct (updatePageUrl_moves_record Sample.pages "example-com"
              (mkNewPageData "Start" "example-org" None) Sample.home)
    as (R & _ & A & B & _).
  - repeat constructor; cbn; intuition discriminate.
  - reflexivity.
  - reflexivity.
  - discriminate.
  - discriminate.
  - split; [exact R | split; [exact A | exact B]].
Defined.

(** C3: without a record at [oldKey], [updatePageUrl] fails with [NotFound]
    and leaves the store as it was: nothing is created under the new key,
    every record is unchanged. *)
Theorem updatePageUrl_missing_source
    (st : collection) (oldKey : string) (newData : NewPageData) :
  lookup oldKey st = None ->
  let o := updatePageUrl oldKey newData (idle st) in
  result o = inl (PageDoesNotExist oldKey) /\
  failure o = Some NotFound /\
  final o = idle st /\
  Forall (eq st) (seen o).
Proof.
  intros H o. subst o. rewrite updatePageUrl_run, H.
  unfold failure; cbn. repeat split; auto.
Qed.

Lemma updatePageUrl_missing_source_witness :
  let o := updatePageUrl "nonexistent" (mkNewPageData "Start" "example-org" None)
             (idle Sample.pages) in
  failure o = Some NotFound /\ final o = idle Sample.pages.
Proof.
  destruct (updatePageUrl_missing_source Sample.pages "nonexistent"
              (mkNewPageData "Start" "example-org" None) eq_refl)
    as (_ & F & S & _).
  split; [exact F | exact S].
Defined.

(** C6, as the specification states it, fails: the document is validated
    before the store sees it, so a second insert under a taken key with an
    empty title fails with a validation error, not with a duplicate key. *)
Lemma createPage_occupied_not_always_duplicate :
  ~ (forall (st : collection) (k title : string) (d : option string) (r : IPage),
        lookup k st = Some r ->
        failure (createPage title k d (idle st)) = Some DuplicateKey /\
        lookup k (committed (final (createPage title k d (idle st)))) = Some r).
Proof.
  intros H.
  destruct (H Sample.pages "example-com" "" None Sample.home eq_refl) as [F _].
  vm_compute in F. discriminate F.
Qed.

(** C6, amended: an insert under a key that already holds a record fails,
    with [DuplicateKey] if the key and the title are non-empty and with
    [InvalidInput] otherwise, and the record under that key, like the whole
    store, is unchanged. *)
Theorem createPage_occupied
    (st : collection) (k title : string) (d : option string) (r : IPage) :
  lookup k st = Some r ->
  let o := createPage title k d (idle st) in
  failure o =
    Some (if validate (mkPage k title d) then DuplicateKey else InvalidInput) /\
  final o = idle st /\
  lookup k (committed (final o)) = Some r.
Proof.
  intros H o. subst o. rewrite createPage_run.
  rewrite (insert_occupied (mkPage k title d) r st H).
  unfold failure; cbn. repeat split; auto.
  now destruct (validate (mkPage k title d)).
Qed.

Lemma createPage_occupied_witness :
  let o := createPage "Home again" "example-com" None (idle Sample.pages) in
  failure o = Some DuplicateKey /\
  lookup "example-com" (committed (final o)) = Some Sample.home.
Proof.
  destruct (createPage_occupied Sample.pages "example-com" "Home again" None
              Sample.home eq_refl) as (F & _ & L).
  split; [exact F | exact L].
Defined.

(** C7: an insert with an empty key or an empty title fails with
    [InvalidInput], and no record is created: the store is unchanged. *)
Theorem createPage_invalid
    (st : collection) (key title : string) (d : option string) :
  key = "" \/ title = "" ->
  let o := createPage title key d (idle st) in
  failure o = Some InvalidInput /\ final o = idle st.
Proof.
  intros H o. subst o. rewrite createPage_run.
  assert (V : validate (mkPage key title d) = false).
  { unfold validate, checkRequired; cbn.
    destruct H as [-> | ->]; cbn; [reflexivity | apply andb_false_r]. }
  unfold insert. rewrite V. split; reflexivity.
Qed.

Lemma createPage_invalid_witness :
  (let o := createPage "Home" "" None (idle Sample.pages) in
   failure o = Some InvalidInput /\ final o = idle Sample.pages) /\
  (let o := createPage "" "example-org" None (idle Sample.pages) in
   failure o = Some InvalidInput /\ final o = idle Sample.pages).
Proof.
  split.
  - apply (createPage_invalid Sample.pages "" "Home" None). left; reflexivity.
  - apply (createPage_invalid Sample.pages "example-org" "" None). right; reflexivity.
Defined.

(** C8, as the specification states it, fails: the update runs the
    validators of the schema, so with an empty title it throws instead of
    returning absent, also when no record exists at the key. *)
Lemma updatePage_miss_not_always_absent :
  ~ (forall (omitUndefined : bool) (st : collection) (k title : string)
            (d : option string),
        lookup k st = None ->
        result (updatePage omitUndefined k title d (idle st)) = inr None /\
        final (updatePage omitUndefined k title d (idle st)) = idle st).
Proof.
  intros H.
  destruct (H true Sample.pages "nonexistent" "" None eq_refl) as [R _].
  vm_compute in R. discriminate R.
Qed.

(** C8, amended: [updatePage] on [k] changes no record's key and no record
    stored under another key than [k]; when no record exists at [k] the
    store is left as it was (nothing is created), and the call returns
    absent if the title is non-empty and fails with [InvalidInput] if it is
    empty. *)
Theorem updatePage_frame
    (omitUndefined : bool) (st : collection) (k title : string)
    (d : option string) :
  let o := updatePage omitUndefined k title d (idle st) in
  keys (committed (final o)) = keys st /\
  others k (committed (final o)) = others k st /\
  (lookup k st = None ->
   final o = idle st /\
   result o = if checkRequired title then inr None else inl ValidationError).
Proof.
  intros o. subst o. rewrite updatePage_run.
  destruct (checkRequired title); cbn.
  - split; [apply keys_modify, setFields_id|].
    split; [apply others_modify, setFields_id|].
    intros H. rewrite H, modify_absent by assumption. auto.
  - auto.
Qed.

Lemma updatePage_frame_witness :
  let o := updatePage true "nonexistent" "Title" (Some "text") (idle Sample.pages) in
  final o = idle Sample.pages /\ result o = inr None.
Proof.
  destruct (updatePage_frame true Sample.pages "nonexistent" "Title" (Some "text"))
    as (_ & _ & H).
  exact (H eq_refl).
Defined.

(** Between two calls no transaction is open. *)
Lemma after_idle (omitUndefined : bool) (c : call) (st : collection) :
  after omitUndefined c (idle st) = idle (committed (after omitUndefined c (idle st))).
Proof.
  destruct c as [|pid|pg u ds|pid pg ds|old nd|pid]; cbn [after].
  - now rewrite getAll_run.
  - now rewrite getPageById_run.
  - rewrite createPage_run. now destruct (insert _ st).
  - rewrite updatePage_run. now destruct (checkRequired pg).
  - rewrite updatePageUrl_run. destruct (lookup old st); [|reflexivity].
    now destruct (insert _ _).
  - now rewrite deletePage_run.
Qed.

Lemma createPage_keeps_unique (pg u : string) (ds : option string) (st : collection) :
  NoDup (keys st) ->
  NoDup (keys (committed (final (createPage pg u ds (idle st))))).
Proof.
  intros H. rewrite createPage_run.
  destruct (insert _ st) as [e|c'] eqn:E; [assumption|].
  apply insert_inr in E as (_ & L & ->). cbn [final committed idle].
  now apply NoDup_keys_snoc.
Qed.

Lemma updatePage_keeps_unique (omitUndefined : bool) (pid pg : string)
    (ds : option string) (st : collection) :
  NoDup (keys st) ->
  NoDup (keys (committed (final (updatePage omitUndefined pid pg ds (idle st))))).
Proof.
  intros H. rewrite updatePage_run. destruct (checkRequired pg); [|assumption].
  cbn. now rewrite keys_modify by apply setFields_id.
Qed.

Lemma updatePageUrl_keeps_unique (old : string) (nd : NewPageData) (st : collection) :
  NoDup (keys st) ->
  NoDup (keys (committed (final (updatePageUrl old nd (idle st))))).
Proof.
  intros H. rewrite updatePageUrl_run. destruct (lookup old st); [|assumption].
  destruct (insert _ _) as [e|c'] eqn:E; [assumption|].
  apply insert_inr in E as (_ & L & ->). cbn [final committed idle].
  apply NoDup_keys_snoc; [now apply NoDup_keys_remove | assumption].
Qed.

Lemma deletePage_keeps_unique (pid : string) (st : collection) :
  NoDup (keys st) ->
  NoDup (keys (committed (final (deletePage pid (idle st))))).
Proof. intros H. rewrite deletePage_run. now apply NoDup_keys_remove. Qed.

Lemma after_keeps_unique (omitUndefined : bool) (c : call) (st : collection) :
  NoDup (keys st) ->
  NoDup (keys (committed (after omitUndefined c (idle st)))).
Proof.
  intros H. destruct c as [|pid|pg u ds|pid pg ds|old nd|pid]; cbn [after].
  - now rewrite getAll_run.
  - now rewrite getPageById_run.
  - now apply createPage_keeps_unique.
  - now apply updatePage_keeps_unique.
  - now apply updatePageUrl_keeps_unique.
  - now apply deletePage_keeps_unique.
Qed.

(** Uniqueness of keys survives any sequence of calls. *)
Lemma afterAll_keeps_unique
    (omitUndefined : bool) (cs : list call) (st : collection) :
  NoDup (keys st) ->
  NoDup (keys (committed (afterAll omitUndefined cs (idle st)))).
Proof.
  revert st. induction cs as [|c cs IH]; intros st H; cbn; [assumption|].
  rewrite after_idle. apply IH. now apply after_keeps_unique.
Qed.

(** C9: every call of the controller ([getAll], [getPageById],
    [createPage], [updatePage], [deletePage], [updatePageUrl]), whether it
    returns or throws, takes a store with at most one record per key to a
    store with at most one record per key. *)
Theorem after_unique_keys
    (omitUndefined : bool) (c : call) (st : collection) :
  NoDup (keys st) ->
  NoDup (keys (committed (after omitUndefined c (idle st)))) /\
  transaction (after omitUndefined c (idle st)) = None.
Proof.
  intros H. split; [now apply after_keeps_unique|].
  now rewrite after_idle.
Qed.

Lemma after_unique_keys_witness :
  NoDup (keys Sample.pages) /\
  NoDup (keys (committed
    (after true (UpdatePageUrl "example-com" (mkNewPageData "Start" "example-org" None))
       (idle Sample.pages)))).
Proof.
  assert (H : NoDup (keys Sample.pages))
    by (repeat constructor; cbn; intuition discriminate).
  split; [exact H | apply (after_unique_keys true _ Sample.pages H)].
Defined.

(** C10, as stated, fails: with an empty title the rename of a record to
    its own key is refused by the validation and rolled back, so the key
    still holds the old record. *)
Lemma updatePageUrl_same_key_not_always :
  ~ (forall (st : collection) (k t : string) (d : option string) (r : IPage),
        lookup k st = Some r ->
        failure (updatePageUrl k (mkNewPageData t k d) (idle st)) <> Some DuplicateKey /\
        lookup k (committed (final (updatePageUrl k (mkNewPageData t k d) (idle st))))
          = Some (mkPage k t d)).
Proof.
  intros H.
  destruct (H Sample.pages "example-com" "" None Sample.home eq_refl) as [_ L].
  vm_compute in L. discriminate L.
Qed.

(** C10, amended: in a store with unique keys that holds a record at [k],
    renaming it to its own key with a non-empty [k] and a non-empty title [t]
    succeeds (the delete inside the transaction frees [k] before the insert);
    afterwards [k] holds [{key: k, title: t, description: d}] and every
    other key holds what it held. *)
Theorem updatePageUrl_same_key
    (st : collection) (k t : string) (d : option string) (r : IPage) :
  NoDup (keys st) ->
  lookup k st = Some r ->
  k <> "" ->
  t <> "" ->
  let o := updatePageUrl k (mkNewPageData t k d) (idle st) in
  result o = inr (mkPage k t d) /\
  failure o = None /\
  lookup k (committed (final o)) = Some (mkPage k t d) /\
  (forall k', k' <> k -> lookup k' (committed (final o)) = lookup k' st).
Proof.
  intros Hnd Hk Hne Ht o. subst o.
  assert (V : validate (newDocument (mkNewPageData t k d)) = true).
  { unfold validate, checkRequired; cbn.
    apply String.eqb_neq in Hne, Ht. now rewrite Hne, Ht. }
  assert (L : lookup (_id (newDocument (mkNewPageData t k d))) (remove k st) = None).
  { cbn. now apply lookup_remove_same. }
  rewrite updatePageUrl_run, Hk, (insert_free _ _ V L).
  unfold failure; cbn.
  split; [reflexivity|]. split; [reflexivity|]. split.
  - rewrite lookup_snoc, lookup_remove_same by assumption.
    cbn. now rewrite String.eqb_refl.
  - intros k' K. rewrite lookup_snoc, lookup_remove_other by assumption.
    cbn [_id newDocument new_url]. destruct (lookup k' st); [reflexivity|].
    destruct (String.eqb_spec k k') as [E|E]; [now subst | reflexivity].
Qed.

Lemma updatePageUrl_same_key_witness :
  let o := updatePageUrl "example-com" (mkNewPageData "Start" "example-com" None)
             (idle Sample.pages) in
  result o = inr (mkPage "example-com" "Start" None) /\
  lookup "example-com" (committed (final o)) = Some (mkPage "example-com" "Start" None).
Proof.
  destruct (updatePageUrl_same_key Sample.pages "example-com" "Start" None Sample.home)
    as (R & _ & L & _).
  - repeat constructor; cbn; intuition discriminate.
  - reflexivity.
  - discriminate.
  - discriminate.
  - split; [exact R | exact L].
Defined.

(** ** More on the normaliser *)

Module UrlMore.
Import Regex UrlFacts.

Lemma length_normalize (s : string) :
  String.length (normalize s) <= String.length s.
Proof.
  unfold normalize. rewrite length_dotsToDashes.
  pose proof (proj1 (length_stripScheme s)).
  pose proof (proj1 (length_stripLeadingSlash (stripScheme s))).
  pose proof (proj1 (length_stripTrailingSlash (stripLeadingSlash (stripScheme s)))).
  lia.
Qed.

(** A key without dots that [cleanUrl] changes gets strictly shorter. *)
Lemma cleanUrl_fixed_or_shorter (t : string) :
  hasDot t = false ->
  cleanUrl t = t \/ String.length (cleanUrl t) < String.length t.
Proof.
  intros D. destruct (outerWrapped t) eqn:W.
  - right. rewrite cleanUrl_normalize. unfold normalize, outerWrapped in *.
    rewrite length_dotsToDashes.
    destruct (length_stripScheme t) as [S1 S2].
    destruct (length_stripLeadingSlash (stripScheme t)) as [L1 L2].
    destruct (length_stripTrailingSlash (stripLeadingSlash (stripScheme t)))
      as [T1 T2].
    destruct (hasScheme t) eqn:Hs; [specialize (S2 eq_refl); lia|].
    rewrite (stripScheme_id _ Hs) in *.
    destruct (startsWithSlash t) eqn:Hl; [specialize (L2 eq_refl); lia|].
    rewrite (stripLeadingSlash_id _ Hl) in *.
    cbn in W. specialize (T2 W). lia.
  - left. apply cleanUrl_fixed_point. now split.
Qed.

Lemma iter_fixed (n : nat) (t : string) :
  cleanUrl t = t -> Nat.iter n cleanUrl t = t.
Proof.
  intros H. induction n as [|n IH]; [reflexivity|].
  now rewrite Nat.iter_succ, IH.
Qed.

Lemma iter_stabilises (n : nat) (t : string) :
  hasDot t = false -> String.length t <= n ->
  cleanUrl (Nat.iter n cleanUrl t) = Nat.iter n cleanUrl t.
Proof.
  revert t. induction n as [|n IH]; intros t D L.
  - destruct t; [reflexivity | cbn in L; lia].
  - destruct (cleanUrl_fixed_or_shorter t D) as [F|F].
    + rewrite !(iter_fixed (S n) t F). exact F.
    + rewrite Nat.iter_succ_r. apply IH; [apply hasDot_cleanUrl | lia].
Qed.

(** The passes commute with the rewriting of dots. *)
Lemma dash_eqb (a c : ascii) :
  Ascii.eqb c "." = false -> Ascii.eqb c "-" = false ->
  Ascii.eqb (if Ascii.eqb a "." then "-"%char else a) c = Ascii.eqb a c.
Proof.
  intros H1 H2. destruct (Ascii.eqb_spec a ".") as [->|N]; [|reflexivity].
  rewrite (Ascii.eqb_sym "-" c), (Ascii.eqb_sym "." c). congruence.
Qed.

Fixpoint plain (w : string) : bool :=
  match w with
  | EmptyString => true
  | String c w' => negb (Ascii.eqb c ".") && negb (Ascii.eqb c "-") && plain w'
  end.

Lemma startsWith_dotsToDashes (w s : string) :
  plain w = true -> startsWith w (dotsToDashes s) = startsWith w s.
Proof.
  revert s. induction w as [|c w IH]; intros s P; [reflexivity|].
  cbn in P. apply andb_true_iff in P as [P Pw]. apply andb_true_iff in P as [P1 P2].
  apply negb_true_iff in P1, P2.
  destruct s as [|a s]; [reflexivity|].
  cbn [dotsToDashes startsWith]. rewrite dash_eqb by assumption.
  now rewrite IH.
Qed.

Lemma drop_dotsToDashes (n : nat) (s : string) :
  drop n (dotsToDashes s) = dotsToDashes (drop n s).
Proof.
  revert s. induction n as [|n IH]; intros s; [reflexivity|].
  destruct s as [|a s]; [reflexivity | apply IH].
Qed.

Lemma stripScheme_dotsToDashes (s : string) :
  stripScheme (dotsToDashes s) = dotsToDashes (stripScheme s).
Proof.
  unfold stripScheme.
  rewrite !startsWith_dotsToDashes by reflexivity.
  destruct (startsWith "https://" s); [apply drop_dotsToDashes|].
  destruct (startsWith "http://" s); [apply drop_dotsToDashes | reflexivity].
Qed.

Lemma stripLeadingSlash_dotsToDashes (s : string) :
  stripLeadingSlash (dotsToDashes s) = dotsToDashes (stripLeadingSlash s).
Proof.
  destruct s as [|a s]; [reflexivity|].
  cbn [dotsToDashes stripLeadingSlash]. rewrite dash_eqb by reflexivity.
  destruct (Ascii.eqb a "/"); reflexivity.
Qed.

Lemma stripTrailingSlash_dotsToDashes (s : string) :
  stripTrailingSlash (dotsToDashes s) = dotsToDashes (stripTrailingSlash s).
Proof.
  induction s as [|a s IH]; [reflexivity|].
  destruct s as [|b s].
  - cbn. rewrite dash_eqb by reflexivity.
    destruct (Ascii.eqb a "/"); reflexivity.
  - change (dotsToDashes (String a (String b s)))
      with (String (if Ascii.eqb a "." then "-"%char else a)
              (dotsToDashes (String b s))).
    change (stripTrailingSlash (String a (String b s)))
      with (String a (stripTrailingSlash (String b s))).
    change (dotsToDashes (String a (stripTrailingSlash (String b s))))
      with (String (if Ascii.eqb a "." then "-"%char else a)
              (dotsToDashes (stripTrailingSlash (String b s)))).
    rewrite <- IH. reflexivity.
Qed.

Lemma dotsToDashes_twice (s : string) :
  dotsToDashes (dotsToDashes s) = dotsToDashes s.
Proof. apply dotsToDashes_id, hasDot_dotsToDashes. Qed.

End UrlMore.

(** X1: a key produced by [cleanUrl] never contains a dot. *)
Theorem cleanUrl_never_contains_dot (url : string) :
  hasDot (cleanUrl url) = false.
Proof. apply UrlFacts.hasDot_cleanUrl. Qed.

(** X2: [cleanUrl] never makes a string longer. *)
Theorem cleanUrl_never_longer (url : string) :
  String.length (cleanUrl url) <= String.length url.
Proof. rewrite UrlFacts.cleanUrl_normalize. apply UrlMore.length_normalize. Qed.

(** X3: the key does not depend on the scheme: [http://] and [https://] in
    front of the same rest give the same key, which is the key of the rest
    alone unless the rest begins with a scheme of its own. *)
Theorem cleanUrl_scheme_irrelevant (rest : string) :
  cleanUrl ("http://" ++ rest) = cleanUrl ("https://" ++ rest) /\
  (hasScheme rest = false -> cleanUrl ("https://" ++ rest) = cleanUrl rest).
Proof.
  rewrite !UrlFacts.cleanUrl_normalize. unfold normalize.
  assert (E1 : stripScheme ("http://" ++ rest) = rest) by reflexivity.
  assert (E2 : stripScheme ("https://" ++ rest) = rest) by reflexivity.
  rewrite E1, E2. split; [reflexivity|].
  intros H. now rewrite (UrlFacts.stripScheme_id _ H).
Qed.

Lemma cleanUrl_scheme_irrelevant_witness :
  hasScheme "example.com/about/" = false /\
  cleanUrl "https://example.com/about/" = cleanUrl "example.com/about/".
Proof.
  split; [reflexivity|].
  apply (proj2 (cleanUrl_scheme_irrelevant "example.com/about/")). reflexivity.
Defined.

(** X4: writing dashes for the dots of a URL does not change its key, so
    URLs that differ only in dots against dashes share one key. *)
Theorem cleanUrl_dots_dashes_collide (url : string) :
  cleanUrl (Regex.replaceAll re_dot url "-") = cleanUrl url.
Proof.
  unfold Regex.replaceAll. rewrite UrlFacts.replaceAllFrom_dot.
  rewrite !UrlFacts.cleanUrl_normalize. unfold normalize.
  rewrite UrlMore.stripScheme_dotsToDashes, UrlMore.stripLeadingSlash_dotsToDashes,
    UrlMore.stripTrailingSlash_dotsToDashes.
  apply UrlMore.dotsToDashes_twice.
Qed.

(** X5: the two revisions of [cleanUrl] give the same key exactly when the
    key of the earlier revision has no dot. *)
Theorem cleanUrl_revisions_agree_iff (url : string) :
  cleanUrl url = cleanUrl_rev1 url <-> hasDot (cleanUrl_rev1 url) = false.
Proof.
  change (cleanUrl url) with (Regex.replaceAll re_dot (cleanUrl_rev1 url) "-").
  unfold Regex.replaceAll. rewrite UrlFacts.replaceAllFrom_dot.
  symmetry. apply UrlFacts.dotsToDashes_id.
Qed.

(** X6: normalising again and again comes to rest: after at most
    [length url + 1] applications the key is one that [cleanUrl] returns
    unchanged. *)
Theorem cleanUrl_iterates_stabilise (url : string) :
  cleanUrl (Nat.iter (S (String.length url)) cleanUrl url)
  = Nat.iter (S (String.length url)) cleanUrl url.
Proof.
  rewrite Nat.iter_succ_r.
  apply UrlMore.iter_stabilises;
    [apply UrlFacts.hasDot_cleanUrl | rewrite UrlFacts.cleanUrl_normalize; apply UrlMore.length_normalize].
Qed.

(** ** More on the collection and the controller *)

Module CollectionMore.

Lemma others_remove (id : string) (c : collection) :
  others id (remove id c) = others id c.
Proof.
  induction c as [|d c IH]; cbn; [reflexivity|].
  destruct (_id d =? id) eqn:E; cbn; [reflexivity|].
  rewrite E. cbn. f_equal. exact IH.
Qed.

Lemma length_remove_hit (id : string) (c : collection) (r : IPage) :
  lookup id c = Some r -> S (length (remove id c)) = length c.
Proof.
  induction c as [|d c IH]; cbn; [discriminate|].
  destruct (_id d =? id); [reflexivity|].
  intros H. cbn. now rewrite IH.
Qed.

Lemma remove_snoc_same (c : collection) (d : IPage) :
  lookup (_id d) c = None -> remove (_id d) (c ++ [d]) = c.
Proof.
  induction c as [|d0 c IH]; cbn.
  - now rewrite String.eqb_refl.
  - destruct (_id d0 =? _id d); [discriminate|]. intros H. now rewrite IH.
Qed.

Lemma filter_remove (P : IPage -> bool) (id : string) (c : collection) :
  (forall d, P d = true -> _id d <> id) ->
  filter P (remove id c) = filter P c.
Proof.
  intros HP. induction c as [|d c IH]; cbn; [reflexivity|].
  destruct (String.eqb_spec (_id d) id) as [E|E]; cbn.
  - destruct (P d) eqn:Pd; [|reflexivity]. now apply HP in Pd.
  - now rewrite IH.
Qed.

Lemma Forall_remove (P : IPage -> Prop) (id : string) (c : collection) :
  Forall P c -> Forall P (remove id c).
Proof.
  induction 1 as [|d c Hd Hc IH]; cbn; [constructor|].
  destruct (_id d =? id); [assumption | now constructor].
Qed.

Lemma Forall_modify (P : IPage -> Prop) (f : IPage -> IPage) (id : string)
    (c : collection) :
  (forall d, P d -> P (f d)) -> Forall P c -> Forall P (modify id f c).
Proof.
  intros Hf. induction 1 as [|d c Hd Hc IH]; cbn; [constructor|].
  destruct (_id d =? id); constructor; auto.
Qed.

Section Modify.

Variable f : IPage -> IPage.
Hypothesis f_id : forall d, _id (f d) = _id d.

Lemma lookup_modify (id : string) (c : collection) :
  lookup id (modify id f c) = option_map f (lookup id c).
Proof.
  induction c as [|d c IH]; cbn; [reflexivity|].
  destruct (_id d =? id) eqn:E; cbn.
  - now rewrite f_id, E.
  - now rewrite E.
Qed.


Lemma length_modify (id : string) (c : collection) :
  length (modify id f c) = length c.
Proof.
  induction c as [|d c IH]; cbn; [reflexivity|].
  destruct (_id d =? id); cbn; [reflexivity | now rewrite IH].
Qed.

Lemma modify_twice (id : string) (c : collection) :
  (forall d, f (f d) = f d) -> modify id f (modify id f c) = modify id f c.
Proof.
  intros Hf. induction c as [|d c IH]; cbn; [reflexivity|].
  destruct (_id d =? id) eqn:E; cbn.
  - now rewrite f_id, E, Hf.
  - now rewrite E, IH.
Qed.

End Modify.

Lemma setFields_twice (omitUndefined : bool) (p : string) (ds : option string)
    (d : IPage) :
  setFields omitUndefined p ds (setFields omitUndefined p ds d)
  = setFields omitUndefined p ds d.
Proof.
  unfold setFields; cbn. destruct ds, omitUndefined; reflexivity.
Qed.

Lemma validate_setFields (omitUndefined : bool) (p : string) (ds : option string)
    (d : IPage) :
  checkRequired p = true -> validate d = true ->
  validate (setFields omitUndefined p ds d) = true.
Proof.
  unfold validate; cbn. intros Hp H.
  apply andb_true_iff in H as [H _]. now rewrite H, Hp.
Qed.

Lemma validate_nonempty (k t : string) (d : option string) :
  k <> "" -> t <> "" -> validate (mkPage k t d) = true.
Proof.
  intros Hk Ht. unfold validate, checkRequired; cbn.
  apply String.eqb_neq in Hk, Ht. now rewrite Hk, Ht.
Qed.

Lemma page_eta (r : IPage) : mkPage (_id r) (page r) (description r) = r.
Proof. now destruct r. Qed.

End CollectionMore.

Import CollectionMore.

(** X7: [getPageById] reads and does not write; a document it returns
    carries the requested [_id] and is one of the documents of [getAll];
    it returns null exactly when no document has that [_id]. *)
Theorem getPageById_consistent (st : collection) (pageId : string) :
  final (getPageById pageId (idle st)) = idle st /\
  (forall d, result (getPageById pageId (idle st)) = inr (Some d) ->
             _id d = pageId /\ result (getAll (idle st)) = inr st /\ In d st) /\
  (result (getPageById pageId (idle st)) = inr None <-> ~ In pageId (keys st)).
Proof.
  rewrite getPageById_run, getAll_run; cbn.
  split; [reflexivity|]. split.
  - intros d [= H]. destruct (lookup_Some_id _ _ _ H). auto.
  - rewrite <- lookup_None_iff. split; [now intros [= H] | now intros ->].
Qed.

Lemma getPageById_consistent_witness :
  _id Sample.about = "example-com/about" /\ In Sample.about Sample.pages.
Proof.
  destruct (proj1 (proj2 (getPageById_consistent Sample.pages "example-com/about"))
              Sample.about eq_refl) as (A & _ & B).
  split; [exact A | exact B].
Defined.

(** X8: after [deletePage] of a key, in a store with unique keys,
    [getPageById] of that key returns null; [deletePage] itself returns the
    document that was stored there, or null. *)
Theorem deletePage_then_get (st : collection) (pageId : string) :
  NoDup (keys st) ->
  let o := deletePage pageId (idle st) in
  result o = inr (lookup pageId st) /\
  result (getPageById pageId (final o)) = inr None.
Proof.
  intros H o. subst o. rewrite deletePage_run. cbn [final result].
  rewrite getPageById_run. cbn. now rewrite lookup_remove_same.
Qed.

Lemma deletePage_then_get_witness :
  result (deletePage "example-com" (idle Sample.pages)) = inr (Some Sample.home) /\
  result (getPageById "example-com"
            (final (deletePage "example-com" (idle Sample.pages)))) = inr None.
Proof.
  apply (deletePage_then_get Sample.pages "example-com").
  repeat constructor; cbn; intuition discriminate.
Defined.

(** X9: [deletePage] never touches a document stored under another key;
    when the key holds a document the store has one document less, and when
    it holds none the store is unchanged and null is returned. *)
Theorem deletePage_frame (st : collection) (pageId : string) :
  let o := deletePage pageId (idle st) in
  others pageId (committed (final o)) = others pageId st /\
  (forall k, k <> pageId -> lookup k (committed (final o)) = lookup k st) /\
  (forall r, lookup pageId st = Some r ->
             S (length (committed (final o))) = length st) /\
  (lookup pageId st = None -> final o = idle st /\ result o = inr None).
Proof.
  intros o. subst o. rewrite deletePage_run. cbn.
  split; [apply others_remove|].
  split; [intros k K; now apply lookup_remove_other|].
  split; [intros r H; now apply length_remove_hit with r|].
  intros H. now rewrite H, remove_absent.
Qed.

Lemma deletePage_frame_witness :
  S (length (committed (final (deletePage "example-com" (idle Sample.pages)))))
    = length Sample.pages /\
  final (deletePage "nonexistent" (idle Sample.pages)) = idle Sample.pages.
Proof.
  split.
  - apply (proj1 (proj2 (proj2 (deletePage_frame Sample.pages "example-com")))
             Sample.home eq_refl).
  - apply (proj2 (proj2 (proj2 (deletePage_frame Sample.pages "nonexistent")))
             eq_refl).
Defined.

(** X10: [createPage] with a non-empty title under a non-empty key that holds
    no document returns the new document, puts it at the end of what
    [getAll] lists, makes [getPageById] of the key return it and leaves every
    other key as it was. *)
Theorem createPage_success
    (st : collection) (title url : string) (d : option string) :
  lookup url st = None -> url <> "" -> title <> "" ->
  let o := createPage title url d (idle st) in
  result o = inr (mkPage url title d) /\
  result (getAll (final o)) = inr (st ++ [mkPage url title d]) /\
  result (getPageById url (final o)) = inr (Some (mkPage url title d)) /\
  (forall k, k <> url -> lookup k (committed (final o)) = lookup k st).
Proof.
  intros L Hu Ht o. subst o. rewrite createPage_run.
  rewrite (insert_free (mkPage url title d) st (validate_nonempty _ _ _ Hu Ht) L).
  cbn [result final].
  rewrite getAll_run, getPageById_run. cbn [result committed idle].
  split; [reflexivity|]. split; [reflexivity|]. split.
  - rewrite lookup_snoc, L. cbn. now rewrite String.eqb_refl.
  - intros k K. rewrite lookup_snoc. cbn.
    destruct (lookup k st); [reflexivity|].
    destruct (String.eqb_spec url k); congruence.
Qed.

Lemma createPage_success_witness :
  result (createPage "Blog" "example-com/blog" None (idle Sample.pages))
    = inr (mkPage "example-com/blog" "Blog" None) /\
  result (getAll (final (createPage "Blog" "example-com/blog" None (idle Sample.pages))))
    = inr (Sample.pages ++ [mkPage "example-com/blog" "Blog" None]).
Proof.
  destruct (createPage_success Sample.pages "Blog" "example-com/blog" None)
    as (R & A & _); [reflexivity | discriminate | discriminate |].
  split; [exact R | exact A].
Defined.

(** X11: [deletePage] of a key right after a successful [createPage] under
    it returns the created document and gives back the store as it was
    before the two calls. *)
Theorem createPage_then_deletePage
    (st : collection) (title url : string) (d : option string) :
  lookup url st = None -> url <> "" -> title <> "" ->
  let o := deletePage url (final (createPage title url d (idle st))) in
  result o = inr (Some (mkPage url title d)) /\ final o = idle st.
Proof.
  intros L Hu Ht o. subst o. rewrite createPage_run.
  rewrite (insert_free (mkPage url title d) st (validate_nonempty _ _ _ Hu Ht) L).
  cbn [final]. rewrite deletePage_run.
  rewrite lookup_snoc, L. cbn [_id]. rewrite String.eqb_refl.
  split; [reflexivity|].
  cbn [final]. f_equal. exact (remove_snoc_same st (mkPage url title d) L).
Qed.

Lemma createPage_then_deletePage_witness :
  final (deletePage "example-com/blog"
           (final (createPage "Blog" "example-com/blog" None (idle Sample.pages))))
  = idle Sample.pages.
Proof.
  apply (createPage_then_deletePage Sample.pages "Blog" "example-com/blog" None);
    [reflexivity | discriminate | discriminate].
Defined.

(** X12: [updatePage] with a non-empty title on a key that holds a document
    returns that document with the new title, the same [_id] and the new
    description (the old one when none is given and undefined fields are
    dropped, none when they are stored as null); [getPageById] then returns
    the same document, and the store has as many documents as before. *)
Theorem updatePage_hit
    (omitUndefined : bool) (st : collection) (pageId title : string)
    (d : option string) (r : IPage) :
  lookup pageId st = Some r -> title <> "" ->
  let o := updatePage omitUndefined pageId title d (idle st) in
  let r' := mkPage pageId title
              (match d with
               | Some v => Some v
               | None => if omitUndefined then description r else None
               end) in
  result o = inr (Some r') /\
  result (getPageById pageId (final o)) = inr (Some r') /\
  length (committed (final o)) = length st.
Proof.
  intros L Ht o r'. subst o r'. rewrite updatePage_run.
  assert (C : checkRequired title = true).
  { unfold checkRequired. apply String.eqb_neq in Ht. now rewrite Ht. }
  rewrite C. cbn [result final]. rewrite getPageById_run. cbn [result committed idle].
  rewrite lookup_modify by apply setFields_id. rewrite L. cbn [option_map].
  destruct (lookup_Some_id _ _ _ L) as [E _].
  unfold setFields. rewrite E.
  repeat split. apply length_modify.
Qed.

Lemma updatePage_hit_witness :
  result (updatePage true "example-com" "Welcome" None (idle Sample.pages))
    = inr (Some (mkPage "example-com" "Welcome" (Some "Landing page"))) /\
  result (updatePage false "example-com" "Welcome" None (idle Sample.pages))
    = inr (Some (mkPage "example-com" "Welcome" None)).
Proof.
  split.
  - apply (updatePage_hit true Sample.pages "example-com" "Welcome" None Sample.home);
      [reflexivity | discriminate].
  - apply (updatePage_hit false Sample.pages "example-com" "Welcome" None Sample.home);
      [reflexivity | discriminate].
Defined.

(** X13: [updatePage] is idempotent: the same update a second time returns
    what the first returned and leaves the store the first left. *)
Theorem updatePage_idempotent
    (omitUndefined : bool) (st : collection) (pageId title : string)
    (d : option string) :
  let o1 := updatePage omitUndefined pageId title d (idle st) in
  let o2 := updatePage omitUndefined pageId title d (final o1) in
  result o2 = result o1 /\ final o2 = final o1.
Proof.
  intros o1 o2. subst o1 o2. rewrite updatePage_run.
  destruct (checkRequired title) eqn:C; cbn [final].
  - rewrite updatePage_run, C. cbn [result final].
    rewrite lookup_modify by apply setFields_id.
    rewrite modify_twice by (apply setFields_id || apply setFields_twice).
    split; [|reflexivity].
    destruct (lookup pageId st); cbn; [now rewrite setFields_twice | reflexivity].
  - rewrite updatePage_run, C. split; reflexivity.
Qed.

(** X14: [updatePageUrl] is all or nothing for every input: when it throws
    the store is the one before the call; until the call ends every reader
    sees the store as it was before, and the last state seen is the final
    one; no transaction is left open. *)
Theorem updatePageUrl_atomic
    (st : collection) (oldUrl : string) (newPageData : NewPageData) :
  let o := updatePageUrl oldUrl newPageData (idle st) in
  (failure o <> None -> final o = idle st) /\
  Forall (eq st) (removelast (seen o)) /\
  last (seen o) st = committed (final o) /\
  transaction (final o) = None.
Proof.
  intros o. subst o. rewrite updatePageUrl_run.
  destruct (lookup oldUrl st).
  - destruct (insert _ _); unfold failure; cbn;
      repeat split; auto; congruence.
  - unfold failure; cbn. repeat split; auto.
Qed.

Lemma updatePageUrl_atomic_witness :
  final (updatePageUrl "example-com" (mkNewPageData "" "example-org" None)
           (idle Sample.pages)) = idle Sample.pages.
Proof.
  apply (proj1 (updatePageUrl_atomic Sample.pages "example-com"
                  (mkNewPageData "" "example-org" None))).
  discriminate.
Defined.

(** X15: [updatePageUrl] never changes the number of documents, whether it
    returns or throws. *)
Theorem updatePageUrl_count
    (st : collection) (oldUrl : string) (newPageData : NewPageData) :
  length (committed (final (updatePageUrl oldUrl newPageData (idle st))))
  = length st.
Proof.
  rewrite updatePageUrl_run.
  destruct (lookup oldUrl st) as [r|] eqn:L; [|reflexivity].
  destruct (insert _ _) as [e|c] eqn:E; [reflexivity|].
  apply insert_inr in E as (_ & _ & ->). cbn.
  rewrite length_app. cbn. rewrite <- (length_remove_hit _ _ _ L). lia.
Qed.


(** X17: when [updatePageUrl] returns, it has done what [deletePage] of the
    old key followed by [createPage] of the new data does: the same document
    is returned and the same store is left. *)
Theorem updatePageUrl_as_delete_then_create
    (st : collection) (oldUrl : string) (newPageData : NewPageData) (p : IPage) :
  result (updatePageUrl oldUrl newPageData (idle st)) = inr p ->
  let o := createPage (new_page newPageData) (new_url newPageData)
             (new_description newPageData) (final (deletePage oldUrl (idle st))) in
  result o = inr p /\
  final o = final (updatePageUrl oldUrl newPageData (idle st)).
Proof.
  rewrite updatePageUrl_run, deletePage_run. cbn [final].
  rewrite createPage_run. fold (newDocument newPageData).
  destruct (lookup oldUrl st); [|discriminate].
  destruct (insert _ _); [discriminate|].
  cbn. intros [= <-]. split; reflexivity.
Qed.

Lemma updatePageUrl_as_delete_then_create_witness :
  final (createPage "Start" "example-org" None
           (final (deletePage "example-com" (idle Sample.pages))))
  = final (updatePageUrl "example-com" (mkNewPageData "Start" "example-org" None)
             (idle Sample.pages)).
Proof.
  apply (updatePageUrl_as_delete_then_create Sample.pages "example-com"
           (mkNewPageData "Start" "example-org" None)
           (mkPage "example-org" "Start" None)).
  reflexivity.
Defined.

(** X18: when the new key is taken, [deletePage] followed by [createPage]
    loses the document of the old key (the second call throws after the
    first has deleted), where [updatePageUrl] keeps it. *)
Theorem delete_then_create_loses_record
    (st : collection) (oldUrl : string) (newPageData : NewPageData)
    (r r' : IPage) :
  NoDup (keys st) ->
  lookup oldUrl st = Some r ->
  lookup (new_url newPageData) st = Some r' ->
  oldUrl <> new_url newPageData ->
  let o := createPage (new_page newPageData) (new_url newPageData)
             (new_description newPageData) (final (deletePage oldUrl (idle st))) in
  failure o <> None /\
  lookup oldUrl (committed (final o)) = None /\
  lookup oldUrl (committed (final (updatePageUrl oldUrl newPageData (idle st))))
    = Some r.
Proof.
  intros Hnd Hold Hnew Hneq o. subst o.
  assert (L : lookup (_id (newDocument newPageData)) (remove oldUrl st) = Some r').
  { cbn [newDocument _id]. rewrite lookup_remove_other; auto. }
  rewrite updatePageUrl_run, deletePage_run, Hold. cbn [final].
  rewrite createPage_run. fold (newDocument newPageData).
  rewrite (insert_occupied _ _ _ L). unfold failure; cbn.
  split; [discriminate|]. split; [now apply lookup_remove_same | assumption].
Qed.

Lemma delete_then_create_loses_record_witness :
  lookup "example-com"
    (committed (final (createPage "Team" "example-com/about" None
                         (final (deletePage "example-com" (idle Sample.pages))))))
    = None /\
  lookup "example-com"
    (committed (final (updatePageUrl "example-com"
                         (mkNewPageData "Team" "example-com/about" None)
                         (idle Sample.pages))))
    = Some Sample.home.
Proof.
  destruct (delete_then_create_loses_record Sample.pages "example-com"
              (mkNewPageData "Team" "example-com/about" None)
              Sample.home Sample.about) as (_ & A & B).
  - repeat constructor; cbn; intuition discriminate.
  - reflexivity.
  - reflexivity.
  - discriminate.
  - split; [exact A | exact B].
Defined.

(** X19: if every document of the store satisfies the schema (non-empty
    [_id] and [page]), so does every document after any call of the
    controller. *)
Theorem after_keeps_valid
    (omitUndefined : bool) (c : call) (st : collection) :
  Forall (fun d => validate d = true) st ->
  Forall (fun d => validate d = true) (committed (after omitUndefined c (idle st))).
Proof.
  intros H. destruct c as [|pid|pg u ds|pid pg ds|old nd|pid]; cbn [after].
  - now rewrite getAll_run.
  - now rewrite getPageById_run.
  - rewrite createPage_run.
    destruct (insert _ st) as [e|c'] eqn:E; [assumption|].
    apply insert_inr in E as (V & _ & ->). cbn [final committed idle].
    apply Forall_app. split; [assumption | now constructor].
  - rewrite updatePage_run. destruct (checkRequired pg) eqn:C; [|assumption].
    cbn. apply Forall_modify; [|assumption].
    intros d. now apply validate_setFields.
  - rewrite updatePageUrl_run. destruct (lookup old st); [|assumption].
    destruct (insert _ _) as [e|c'] eqn:E; [assumption|].
    apply insert_inr in E as (V & _ & ->). cbn [final committed idle].
    apply Forall_app. split; [now apply Forall_remove | now constructor].
  - rewrite deletePage_run. now apply Forall_remove.
Qed.

Lemma after_keeps_valid_witness :
  Forall (fun d => validate d = true)
    (committed (after true (UpdatePage "example-com" "Welcome" None)
                  (idle Sample.pages))).
Proof.
  apply (after_keeps_valid true (UpdatePage "example-com" "Welcome" None) Sample.pages).
  repeat constructor.
Defined.

(** X20: renaming a document to a free key and then back to its old key with
    its old title and description, in a store of valid documents with unique
    keys, leaves every key holding what it held at the start. *)
Theorem updatePageUrl_there_and_back
    (st : collection) (a b t : string) (d : option string) (r : IPage) :
  NoDup (keys st) ->
  lookup a st = Some r ->
  lookup b st = None ->
  validate r = true -> b <> "" -> t <> "" ->
  let o1 := updatePageUrl a (mkNewPageData t b d) (idle st) in
  let o2 := updatePageUrl b (mkNewPageData (page r) a (description r)) (final o1) in
  result o2 = inr r /\
  (forall k, lookup k (committed (final o2)) = lookup k st).
Proof.
  intros Hnd Ha Hb Vr Hbe Ht o1 o2. subst o1 o2.
  destruct (lookup_Some_id _ _ _ Ha) as [Ea _].
  assert (Hab : b <> a) by (intros E; congruence).
  assert (L1 : lookup (_id (newDocument (mkNewPageData t b d))) (remove a st) = None).
  { cbn. rewrite lookup_remove_other; auto. }
  rewrite updatePageUrl_run, Ha,
    (insert_free (newDocument (mkNewPageData t b d)) _
       (validate_nonempty b t d Hbe Ht) L1).
  cbn [final]. set (c1 := remove a st ++ [newDocument (mkNewPageData t b d)]).
  assert (N1 : NoDup (keys c1)).
  { apply NoDup_keys_snoc; [now apply NoDup_keys_remove | exact L1]. }
  assert (B1 : lookup b c1 = Some (mkPage b t d)).
  { unfold c1. rewrite lookup_snoc, lookup_remove_other, Hb by assumption.
    cbn. now rewrite String.eqb_refl. }
  assert (R2 : newDocument (mkNewPageData (page r) a (description r)) = r).
  { unfold newDocument; cbn. rewrite <- Ea. apply page_eta. }
  assert (L2 : lookup (_id r) (remove b c1) = None).
  { rewrite Ea, lookup_remove_other by auto.
    unfold c1. rewrite lookup_snoc, lookup_remove_same by assumption.
    cbn. apply String.eqb_neq in Hab. now rewrite Hab. }
  rewrite updatePageUrl_run, B1, R2, (insert_free r _ Vr L2). cbn.
  split; [reflexivity|].
  intros k. rewrite lookup_snoc.
  destruct (String.eqb_spec b k) as [<-|Nb].
  - rewrite lookup_remove_same by assumption. rewrite Ea.
    apply String.eqb_neq in Hab. rewrite String.eqb_sym, Hab. now rewrite Hb.
  - rewrite lookup_remove_other by auto. unfold c1. rewrite lookup_snoc.
    cbn [_id newDocument new_url].
    apply String.eqb_neq in Nb. rewrite Nb.
    destruct (String.eqb_spec (_id r) k) as [<-|Na].
    + rewrite Ea, lookup_remove_same by assumption. now rewrite Ha.
    + rewrite lookup_remove_other by congruence.
      now destruct (lookup k st).
Qed.

Lemma updatePageUrl_there_and_back_witness :
  lookup "example-com"
    (committed (final (updatePageUrl "example-org"
       (mkNewPageData "Home" "example-com" (Some "Landing page"))
       (final (updatePageUrl "example-com" (mkNewPageData "Start" "example-org" None)
                 (idle Sample.pages))))))
  = Some Sample.home.
Proof.
  destruct (updatePageUrl_there_and_back Sample.pages "example-com" "example-org"
              "Start" None Sample.home) as [_ H].
  - repeat constructor; cbn; intuition discriminate.
  - reflexivity.
  - reflexivity.
  - reflexivity.
  - discriminate.
  - discriminate.
  - exact (H "example-com").
Defined.

(** ** The request handlers *)

Module RoutesFacts.
Import Routes.

Lemma handler_getPage_run (req : Request) (st : collection) :
  Routes.getPage req (idle st) =
  mkOutcome
    (inr (Json 200 (mkResponse "Page retrieved successfully" "success"
                      (lookup (cleanUrl (params0 req)) st))))
    (idle st) [st].
Proof. reflexivity. Qed.

Lemma handler_deletePage_run (req : Request) (st : collection) :
  Routes.deletePage req (idle st) =
  mkOutcome
    (inr (Json 200 (mkResponse "Page deleted successfully" "success"
                      (lookup (cleanUrl (params0 req)) st))))
    (idle (remove (cleanUrl (params0 req)) st))
    [remove (cleanUrl (params0 req)) st].
Proof. reflexivity. Qed.

Lemma handler_createPage_run (req : Request) (st : collection) :
  Routes.createPage req (idle st) =
  match insert (mkPage (body_url req) (body_page req) (body_description req)) st with
  | inl _ =>
      mkOutcome (inr (Next (mkServerFailedError "Failed to create page.")))
        (idle st) [st]
  | inr c =>
      mkOutcome
        (inr (Json 200 (mkResponse "Page created successfully" "success"
                          (mkPage (body_url req) (body_page req)
                             (body_description req)))))
        (idle c) [c]
  end.
Proof.
  unfold Routes.createPage, tryCatch, bind.
  rewrite ControllerFacts.createPage_run.
  destruct (insert _ st); reflexivity.
Qed.


Lemma pageUrl_body_url (req : Request) :
  body_url (pageUrl req) = cleanUrl (body_url req).
Proof.
  unfold pageUrl, truthy.
  destruct (String.eqb_spec (body_url req) "") as [E|E]; cbn; [|reflexivity].
  now rewrite E.
Qed.

Lemma dotted_not_clean (d : IPage) (url : string) :
  hasDot (_id d) = true -> _id d <> cleanUrl url.
Proof.
  intros H E. rewrite E, UrlFacts.hasDot_cleanUrl in H. discriminate.
Qed.

End RoutesFacts.

(** X21: the handler of [GET /pages/*] never ends in an error for a missing
    page: it always answers 200 with status [success], with the document
    stored under the normalised path or null as data, and leaves the store
    alone; a document it returns has no dot in its key. *)
Theorem getPage_handler_reply (req : Routes.Request) (st : collection) :
  let o := Routes.getPage req (idle st) in
  result o =
    inr (Routes.Json 200
           (Routes.mkResponse "Page retrieved successfully" "success"
              (lookup (cleanUrl (Routes.params0 req)) st))) /\
  final o = idle st /\
  (forall d, Routes.payload (result o) = Some (Some d) ->
             _id d = cleanUrl (Routes.params0 req) /\ hasDot (_id d) = false /\ In d st).
Proof.
  intros o. subst o. rewrite RoutesFacts.handler_getPage_run. cbn.
  split; [reflexivity|]. split; [reflexivity|].
  intros d [= H]. destruct (lookup_Some_id _ _ _ H) as [E I].
  split; [exact E|]. split; [|exact I].
  rewrite E. apply UrlFacts.hasDot_cleanUrl.
Qed.

Lemma getPage_handler_reply_witness :
  Routes.payload
    (result (Routes.getPage (Routes.mkRequest "https://example.com/" "" "" None)
               (idle Sample.pages)))
  = Some (Some Sample.home) /\
  hasDot (_id Sample.home) = false.
Proof.
  split; [reflexivity|].
  apply (proj2 (proj2 (getPage_handler_reply
                         (Routes.mkRequest "https://example.com/" "" "" None)
                         Sample.pages)) Sample.home).
  reflexivity.
Defined.

(** X22: the handler of [POST /pages] reports a taken key, an empty key and
    an empty title in the same way, as [ServerFailedError("Failed to create
    page.")] handed to [next], and stores nothing. *)
Theorem createPage_handler_failure
    (req : Routes.Request) (st : collection) :
  lookup (Routes.body_url req) st <> None \/
  Routes.body_url req = "" \/ Routes.body_page req = "" ->
  let o := Routes.createPage req (idle st) in
  result o = inr (Routes.Next (Routes.mkServerFailedError "Failed to create page.")) /\
  final o = idle st.
Proof.
  intros H o. subst o. rewrite RoutesFacts.handler_createPage_run.
  assert (E : exists e, insert (mkPage (Routes.body_url req) (Routes.body_page req)
                                  (Routes.body_description req)) st = inl e).
  { unfold insert, validate, checkRequired; cbn.
    destruct H as [H | [-> | ->]].
    - destruct (negb _ && negb _); [|eauto].
      destruct (lookup (Routes.body_url req) st); [eauto | congruence].
    - cbn. eauto.
    - rewrite andb_false_r. eauto. }
  destruct E as [e ->]. split; reflexivity.
Qed.

Lemma createPage_handler_failure_witness :
  result (Routes.createPage (Routes.mkRequest "" "Home" "example-com" None)
            (idle Sample.pages))
  = result (Routes.createPage (Routes.mkRequest "" "" "example-org" None)
              (idle Sample.pages)).
Proof.
  destruct (createPage_handler_failure
              (Routes.mkRequest "" "Home" "example-com" None) Sample.pages)
    as [A _]; [left; cbn; discriminate|].
  destruct (createPage_handler_failure
              (Routes.mkRequest "" "" "example-org" None) Sample.pages)
    as [B _]; [right; right; reflexivity|].
  rewrite A, B. reflexivity.
Defined.



(** X24: in a store with unique keys, after the handler of
    [DELETE /pages/*] has run for a path, the handler of [GET /pages/*] for
    the same path answers with null as data. *)
Theorem delete_handler_then_get_handler
    (req : Routes.Request) (st : collection) :
  NoDup (keys st) ->
  Routes.payload
    (result (Routes.getPage req (final (Routes.deletePage req (idle st)))))
  = Some None.
Proof.
  intros H. rewrite RoutesFacts.handler_deletePage_run. cbn [final].
  rewrite RoutesFacts.handler_getPage_run. cbn. now rewrite lookup_remove_same.
Qed.

Lemma delete_handler_then_get_handler_witness :
  Routes.payload
    (result (Routes.getPage (Routes.mkRequest "example.com/" "" "" None)
               (final (Routes.deletePage (Routes.mkRequest "example.com/" "" "" None)
                         (idle Sample.pages)))))
  = Some None.
Proof.
  apply (delete_handler_then_get_handler
           (Routes.mkRequest "example.com/" "" "" None) Sample.pages).
  repeat constructor; cbn; intuition discriminate.
Defined.

(** X25: a page posted through the middleware [pageUrl] is found again
    under the URL it was posted with: if the normalised URL is non-empty and
    free and the title is non-empty, the handler of [POST /pages] answers
    with the new document, whose key is the normalised URL, and the handler
    of [GET /pages/*] for the posted URL then answers with that document. *)
Theorem post_then_get
    (req get : Routes.Request) (st : collection) :
  cleanUrl (Routes.body_url req) <> "" ->
  Routes.body_page req <> "" ->
  lookup (cleanUrl (Routes.body_url req)) st = None ->
  Routes.params0 get = Routes.body_url req ->
  let doc := mkPage (cleanUrl (Routes.body_url req)) (Routes.body_page req)
               (Routes.body_description req) in
  let o := Routes.createPage (Routes.pageUrl req) (idle st) in
  Routes.payload (result o) = Some doc /\
  Routes.payload (result (Routes.getPage get (final o))) = Some (Some doc).
Proof.
  intros Hu Hp L Hg doc o. subst doc o.
  rewrite RoutesFacts.handler_createPage_run, RoutesFacts.pageUrl_body_url.
  assert (E1 : Routes.body_page (Routes.pageUrl req) = Routes.body_page req)
    by (unfold Routes.pageUrl; now destruct (Routes.truthy _)).
  assert (E2 : Routes.body_description (Routes.pageUrl req)
               = Routes.body_description req)
    by (unfold Routes.pageUrl; now destruct (Routes.truthy _)).
  rewrite E1, E2.
  rewrite (insert_free _ st (validate_nonempty _ _ (Routes.body_description req) Hu Hp) L).
  cbn [result final Routes.payload Routes.data].
  rewrite RoutesFacts.handler_getPage_run, Hg. cbn.
  rewrite lookup_snoc, L. cbn. now rewrite String.eqb_refl.
Qed.

Lemma post_then_get_witness :
  Routes.payload
    (result (Routes.getPage (Routes.mkRequest "https://example.org/blog/" "" "" None)
       (final (Routes.createPage
                 (Routes.pageUrl
                    (Routes.mkRequest "" "Blog" "https://example.org/blog/" None))
                 (idle Sample.pages)))))
  = Some (Some (mkPage "example-org/blog" "Blog" None)).
Proof.
  apply (post_then_get (Routes.mkRequest "" "Blog" "https://example.org/blog/" None)
           (Routes.mkRequest "https://example.org/blog/" "" "" None) Sample.pages);
    [discriminate | discriminate | reflexivity | reflexivity].
Defined.

(** X26: a document whose key contains a dot is out of reach of the
    handlers of [GET /pages/*] and [DELETE /pages/*]: whatever the path, the
    first never returns it and the second never removes it. *)
Theorem dotted_keys_out_of_reach
    (req : Routes.Request) (st : collection) (d : IPage) :
  hasDot (_id d) = true ->
  Routes.payload (result (Routes.getPage req (idle st))) <> Some (Some d) /\
  Routes.payload (result (Routes.deletePage req (idle st))) <> Some (Some d) /\
  filter (fun x => hasDot (_id x)) (committed (final (Routes.deletePage req (idle st))))
    = filter (fun x => hasDot (_id x)) st.
Proof.
  intros H. rewrite RoutesFacts.handler_getPage_run, RoutesFacts.handler_deletePage_run. cbn.
  assert (N : lookup (cleanUrl (Routes.params0 req)) st <> Some d).
  { intros L. destruct (lookup_Some_id _ _ _ L) as [E _].
    now apply (RoutesFacts.dotted_not_clean d (Routes.params0 req)). }
  split; [congruence|]. split; [congruence|].
  apply filter_remove. intros x Hx. now apply RoutesFacts.dotted_not_clean.
Qed.

Lemma dotted_keys_out_of_reach_witness :
  filter (fun x => hasDot (_id x))
    (committed (final (Routes.deletePage (Routes.mkRequest "example.com" "" "" None)
                         (idle [mkPage "example.com" "Home" None]))))
  = [mkPage "example.com" "Home" None].
Proof.
  apply (proj2 (proj2 (dotted_keys_out_of_reach
                         (Routes.mkRequest "example.com" "" "" None)
                         [mkPage "example.com" "Home" None]
                         (mkPage "example.com" "Home" None) eq_refl))).
Defined.

